(** * ekfc-blogs-ms: the command / mutation / event pipeline

    A shallow embedding of [src/modules/posts/posts.service.ts] and
    [src/modules/users/users.service.ts].  The services are [async]
    TypeScript methods that talk to a document store and to a message bus and
    signal failure by throwing.  They are embedded in a state-and-exception
    monad over a [World] that holds the two collections, the events delivered
    to the bus, the console, and the chronological list of adapter calls. *)

From stdpp Require Import base strings list gmap.

(** ** Exceptions

    The three exception classes imported by the services, plus [Error] for
    anything else that a driver, the bus client or bcrypt may throw, and
    [Thrown] for a thrown value that is not an [Error] object at all. *)

#[warnings="-register-all"] Inductive Exn : Type :=
| ResourceNotFoundException (msg : string)
| InvalidInputException (msg : string)
| UnexpectedErrorException (msg : string) (cause : option Exn)
| Error (msg : string)
| Thrown (value : string).

(** [error.message] *)
Definition message (e : Exn) : string :=
  match e with
  | ResourceNotFoundException m => m
  | InvalidInputException m => m
  | UnexpectedErrorException m _ => m
  | Error m => m
  | Thrown _ => "undefined"
  end.

(** [error instanceof Error]; the exception classes of the services are
    [Error] objects. *)
Definition instanceof_Error (e : Exn) : bool :=
  match e with
  | Thrown _ => false
  | _ => true
  end.

(** ** Documents *)

(** Modelled from the spec: the [Post] schema and its DTOs
    ([schemas/post.schema.ts], [dto/*.dto.ts]), after section 3: an entity is
    a store-assigned identifier and a set of fields.  The service names none
    of the fields, so they are a JS object from field name to value. *)
Record Post : Type := mkPost {
  post_id : string;
  post_fields : gmap string string
}.

(** [User] ([schemas/user.schema.ts]): the fields that [UsersService] reads
    or writes by name, and the remaining ones as a JS object. *)
Record User : Type := mkUser {
  user_id : string;
  email : string;
  password : string;
  role : string;
  isActive : bool;
  isEmailVerified : bool;
  user_rest : gmap string string
}.

(** [CreateUserDto]: [role], [isActive] and [isEmailVerified] are optional. *)
Record CreateUserDto : Type := mkCreateUserDto {
  dto_email : string;
  dto_password : string;
  dto_role : option string;
  dto_isActive : option bool;
  dto_isEmailVerified : option bool;
  dto_rest : gmap string string
}.

(** [Partial<User>] *)
Record UserPatch : Type := mkUserPatch {
  patch_email : option string;
  patch_password : option string;
  patch_role : option string;
  patch_isActive : option bool;
  patch_isEmailVerified : option bool;
  patch_rest : gmap string string
}.

(** ** Events *)

Inductive Payload : Type :=
| EntityPayload (p : option Post)      (* [post], possibly [null] *)
| IdPayload (id : string).             (* [{ id }] *)

Record Event : Type := mkEvent {
  event_name : string;
  event_payload : Payload
}.

(** ** Adapter calls

    Every call that crosses the service boundary. *)
Inductive Op : Type :=
| UserFind | UserFindOne | UserFindById
| UserSave | UserFindByIdAndUpdate | UserFindByIdAndDelete
| PostFind | PostFindOne
| PostCreate | PostFindOneAndUpdate | PostDeleteOne
| BusEmit
| BcryptHash | BcryptCompare.

(** The calls that ask the store to change a collection. *)
Definition is_write (o : Op) : bool :=
  match o with
  | UserSave | UserFindByIdAndUpdate | UserFindByIdAndDelete
  | PostCreate | PostFindOneAndUpdate | PostDeleteOne => true
  | _ => false
  end.

Definition is_emit (o : Op) : bool :=
  match o with BusEmit => true | _ => false end.

(** ** The world *)

Record World : Type := mkWorld {
  users : list User;
  posts : list Post;
  bus : list Event;          (* events delivered, oldest first *)
  console : list string;     (* [console.error] / [logger.error] lines *)
  trace : list Op            (* adapter calls, oldest first *)
}.

Definition empty_world : World := mkWorld [] [] [] [] [].

(** What the environment decides for one command: which adapter calls reject
    (and with which message), the salt bcrypt draws, and the identifier given
    to a new document. *)
Record Env : Type := mkEnv {
  faults : Op -> option string;
  salt : string;
  fresh_id : string
}.

Definition no_faults : Op -> option string := fun _ => None.

(** ** The monad of [async] methods *)

Inductive Outcome (A : Type) : Type :=
| Return (a : A)
| Throw (e : Exn).
Arguments Return {A} a.
Arguments Throw {A} e.

Definition M (A : Type) : Type := World -> Outcome A * World.

Definition ret {A} (a : A) : M A := fun w => (Return a, w).

Definition throw {A} (e : Exn) : M A := fun w => (Throw e, w).

Definition bind {A B} (m : M A) (k : A -> M B) : M B :=
  fun w =>
    match m w with
    | (Return a, w') => k a w'
    | (Throw e, w') => (Throw e, w')
    end.

(** [try { m } catch (error) { h error }] *)
Definition try_catch {A} (m : M A) (h : Exn -> M A) : M A :=
  fun w =>
    match m w with
    | (Return a, w') => (Return a, w')
    | (Throw e, w') => h e w'
    end.

Declare Scope async_scope.
Delimit Scope async_scope with async.
Notation "x <- m ;; k" := (bind m (fun x => k))
  (at level 100, m at next level, right associativity) : async_scope.
Notation "m ;; k" := (bind m (fun _ => k))
  (at level 100, right associativity) : async_scope.
Open Scope async_scope.

(** JS truthiness of a string: only the empty string is falsy. *)
Definition truthy (s : string) : bool := negb (String.eqb s "").

Definition set_users (us : list User) (w : World) : World :=
  mkWorld us (posts w) (bus w) (console w) (trace w).
Definition set_posts (ps : list Post) (w : World) : World :=
  mkWorld (users w) ps (bus w) (console w) (trace w).
Definition push_event (e : Event) (w : World) : World :=
  mkWorld (users w) (posts w) (bus w ++ [e]) (console w) (trace w).
Definition push_console (l : string) (w : World) : World :=
  mkWorld (users w) (posts w) (bus w) (console w ++ [l]) (trace w).
Definition push_op (o : Op) (w : World) : World :=
  mkWorld (users w) (posts w) (bus w) (console w) (trace w ++ [o]).

(** [console.error(line, error)] and [this.logger.error(line, error)] *)
Definition console_error (line : string) : M unit :=
  fun w => (Return tt, push_console line w).

(** Replace the first element satisfying [f]. *)
Fixpoint update_first {A} (f : A -> bool) (g : A -> A) (l : list A) : list A :=
  match l with
  | [] => []
  | x :: l' => if f x then g x :: l' else x :: update_first f g l'
  end.

(** Remove the first element satisfying [f]. *)
Fixpoint remove_first {A} (f : A -> bool) (l : list A) : list A :=
  match l with
  | [] => []
  | x :: l' => if f x then l' else x :: remove_first f l'
  end.

Definition has_id (id : string) (p : Post) : bool := String.eqb (post_id p) id.
Definition has_user_id (id : string) (u : User) : bool := String.eqb (user_id u) id.
Definition has_email (e : string) (u : User) : bool := String.eqb (email u) e.

(** The document a filter selects: the first one that matches. *)
Definition post_with_id (id : string) (w : World) : option Post :=
  List.find (has_id id) (posts w).
Definition user_with_id (id : string) (w : World) : option User :=
  List.find (has_user_id id) (users w).
Definition user_with_email (e : string) (w : World) : option User :=
  List.find (has_email e) (users w).

(** [{ $set: updatePostDto }] *)
Definition set_post_fields (patch : gmap string string) (p : Post) : Post :=
  mkPost (post_id p) (patch ∪ post_fields p).

(** [{ $set: updateUserDto }] *)
Definition set_user_fields (patch : UserPatch) (u : User) : User :=
  mkUser (user_id u)
         (default (email u) (patch_email patch))
         (default (password u) (patch_password patch))
         (default (role u) (patch_role patch))
         (default (isActive u) (patch_isActive patch))
         (default (isEmailVerified u) (patch_isEmailVerified patch))
         (patch_rest patch ∪ user_rest u).

(** ** Collaborators and services *)

Section Services.

(** bcryptjs: [hash] draws a salt and is otherwise a function of the salt,
    the cost and the data; [compare data encrypted] re-derives the hash from
    the salt embedded in [encrypted]. *)
Variable bcrypt_hash : string -> nat -> string -> string.
Variable bcrypt_compare : string -> string -> bool.

(** [UserRole.USER]; the enum is declared in [dto/create-user.dto.ts]. *)
Variable USER : string.

Variable env : Env.

(** An adapter call is recorded, and rejects when the environment says so;
    a rejected call has no effect on the store or the bus. *)
Definition call {A} (o : Op) (run : World -> A * World) : M A :=
  fun w =>
    let w1 := push_op o w in
    match faults env o with
    | Some msg => (Throw (Error msg), w1)
    | None => let (a, w2) := run w1 in (Return a, w2)
    end.

(** *** [PostsRepository]

    [posts.repository.ts] and the abstract repository it extends are not
    under [src]; the five operations the service calls follow the store
    adapter contract of the specification (section 4.1). *)

(** Modelled from the spec: [PostsRepository.find], "find(filter) answers a
    sequence of entities", here with the empty filter. *)
Definition repo_find : M (list Post) :=
  call PostFind (fun w => (posts w, w)).

(** Modelled from the spec: [PostsRepository.findOne], "findOne(filter)
    answers an entity or the not-found signal", the signal being a value
    ([null], which is what the service's [if (!post)] tests for) and not an
    exception. *)
Definition repo_findOne (id : string) : M (option Post) :=
  call PostFindOne (fun w => (post_with_id id w, w)).

(** Modelled from the spec: [PostsRepository.create], "create(fields) answers
    the entity", with the identifier the store assigns. *)
Definition repo_create (dto : gmap string string) : M Post :=
  call PostCreate (fun w =>
    let p := mkPost (fresh_id env) dto in
    (p, set_posts (posts w ++ [p]) w)).

(** Modelled from the spec: [PostsRepository.findOneAndUpdate], "atomic
    partial update" that answers the updated entity or the not-found
    signal. *)
Definition repo_findOneAndUpdate (id : string) (patch : gmap string string)
  : M (option Post) :=
  call PostFindOneAndUpdate (fun w =>
    (set_post_fields patch <$> post_with_id id w,
     set_posts (update_first (has_id id) (set_post_fields patch) (posts w)) w)).

(** Modelled from the spec: [PostsRepository.deleteOne], "deleteOne(filter)
    answers whether a document was removed". *)
Definition repo_deleteOne (id : string) : M bool :=
  call PostDeleteOne (fun w =>
    (existsb (has_id id) (posts w),
     set_posts (remove_first (has_id id) (posts w)) w)).

(** *** [ClientProxy]: [lastValueFrom(this.blogsClient.emit(name, payload))] *)

Definition emit (name : string) (payload : Payload) : M unit :=
  call BusEmit (fun w => (tt, push_event (mkEvent name payload) w)).

(** *** The Mongoose model of users *)

Definition model_find : M (list User) :=
  call UserFind (fun w => (users w, w)).

Definition model_findOne (e : string) : M (option User) :=
  call UserFindOne (fun w => (user_with_email e w, w)).

Definition model_findById (id : string) : M (option User) :=
  call UserFindById (fun w => (user_with_id id w, w)).

Definition model_save (u : User) : M User :=
  call UserSave (fun w => (u, set_users (users w ++ [u]) w)).

(** with [{ new: true }]: answers the document after the update *)
Definition model_findByIdAndUpdate (id : string) (patch : UserPatch)
  : M (option User) :=
  call UserFindByIdAndUpdate (fun w =>
    (set_user_fields patch <$> user_with_id id w,
     set_users (update_first (has_user_id id) (set_user_fields patch) (users w)) w)).

(** answers the removed document, or [null] *)
Definition model_findByIdAndDelete (id : string) : M (option User) :=
  call UserFindByIdAndDelete (fun w =>
    (user_with_id id w,
     set_users (remove_first (has_user_id id) (users w)) w)).

Definition bcrypt_hash_async (data : string) (rounds : nat) : M string :=
  call BcryptHash (fun w => (bcrypt_hash (salt env) rounds data, w)).

Definition bcrypt_compare_async (data encrypted : string) : M bool :=
  call BcryptCompare (fun w => (bcrypt_compare data encrypted, w)).

(** *** [PostsService] *)

Definition posts_findAll : M (list Post) := repo_find.

Definition createPost (createPostDto : gmap string string) : M Post :=
  try_catch
    (post <- repo_create createPostDto ;;
     emit "post_created" (EntityPayload (Some post)) ;;
     ret post)
    (fun error =>
       console_error "Error creating post:" ;;
       throw (UnexpectedErrorException "Error creating post" None)).

(** The answer of [findOne] is returned as it is, [null] included. *)
Definition findPostById (id : string) : M (option Post) :=
  try_catch
    (post <- repo_findOne id ;;
     ret post)
    (fun error =>
       console_error "Error finding post:" ;;
       throw error).

Definition updatePost (id : string) (updatePostDto : gmap string string)
  : M (option Post) :=
  try_catch
    (existingPost <- repo_findOne id ;;
     match existingPost with
     | None => throw (ResourceNotFoundException "Post not found")
     | Some _ =>
         updatedPost <- repo_findOneAndUpdate id updatePostDto ;;
         emit "post_updated" (EntityPayload updatedPost) ;;
         ret updatedPost
     end)
    (fun error =>
       console_error "Error updating post:" ;;
       match error with
       | ResourceNotFoundException _ => throw error
       | _ => throw (UnexpectedErrorException "Error updating post" None)
       end).

Definition deletePost (id : string) : M unit :=
  try_catch
    (post <- repo_findOne id ;;
     match post with
     | None => throw (ResourceNotFoundException "Post")
     | Some _ =>
         repo_deleteOne id ;;
         emit "post_deleted" (IdPayload id)
     end)
    (fun error =>
       console_error "Error deleting post:" ;;
       match error with
       | ResourceNotFoundException _ => throw (ResourceNotFoundException "Post")
       | _ =>
           (* error instanceof Error ? error : undefined *)
           throw (UnexpectedErrorException "Error deleting post"
                    (if instanceof_Error error then Some error else None))
       end).

(** *** [UsersService] *)

Definition SALT_ROUNDS : nat := 10.

Definition users_findAll : M (list User) := model_find.

Definition findUserByEmail (e : string) : M (option User) :=
  try_catch
    (model_findOne e)
    (fun error => throw (UnexpectedErrorException "Error finding user" None)).

Definition createUser (createUserDto : CreateUserDto) : M User :=
  try_catch
    (existingUser <- findUserByEmail (dto_email createUserDto) ;;
     match existingUser with
     | Some _ => throw (InvalidInputException "Email already exists")
     | None =>
         hashedPassword <- bcrypt_hash_async (dto_password createUserDto) SALT_ROUNDS ;;
         let newUser :=
           mkUser (fresh_id env)
                  (dto_email createUserDto)
                  hashedPassword
                  (* createUserDto.role || UserRole.USER *)
                  (match dto_role createUserDto with
                   | Some r => if truthy r then r else USER
                   | None => USER
                   end)
                  (* createUserDto.isActive ?? true *)
                  (default true (dto_isActive createUserDto))
                  (* createUserDto.isEmailVerified ?? false *)
                  (default false (dto_isEmailVerified createUserDto))
                  (dto_rest createUserDto) in
         savedUser <- model_save newUser ;;
         ret savedUser
     end)
    (fun error =>
       match error with
       | InvalidInputException _ => throw error
       | _ =>
           console_error "Error creating user:" ;;
           throw (UnexpectedErrorException "Error creating user" None)
       end).

Definition findUserById (id : string) : M User :=
  try_catch
    (user <- model_findById id ;;
     match user with
     | None => throw (ResourceNotFoundException "User not found")
     | Some u => ret u
     end)
    (fun error =>
       match error with
       | ResourceNotFoundException _ => throw error
       | _ => throw (UnexpectedErrorException "Error finding user" None)
       end).

Definition updateUser (id : string) (updateUserDto : UserPatch) : M User :=
  try_catch
    (existingUser <- model_findById id ;;
     match existingUser with
     | None => throw (ResourceNotFoundException "User not found")
     | Some existing =>
         (* if (updateUserDto.email && updateUserDto.email !== existingUser.email) *)
         match patch_email updateUserDto with
         | Some e =>
             if truthy e && negb (String.eqb e (email existing)) then
               emailExists <- findUserByEmail e ;;
               match emailExists with
               | Some _ => throw (InvalidInputException "Email already exists")
               | None => ret tt
               end
             else ret tt
         | None => ret tt
         end ;;
         updatedUser <- model_findByIdAndUpdate id updateUserDto ;;
         match updatedUser with
         | None => throw (ResourceNotFoundException "User not found after update")
         | Some u => ret u
         end
     end)
    (fun error =>
       console_error "Update error details:" ;;
       match error with
       | ResourceNotFoundException _ | InvalidInputException _ => throw error
       | _ => throw (UnexpectedErrorException
                       ("Error updating user: " +:+ message error) None)
       end).

Definition deleteUser (id : string) : M unit :=
  try_catch
    (result <- model_findByIdAndDelete id ;;
     match result with
     | None => throw (ResourceNotFoundException "User not found")
     | Some _ => ret tt
     end)
    (fun error =>
       match error with
       | ResourceNotFoundException _ => throw error
       | _ => throw (UnexpectedErrorException "Error deleting user" None)
       end).

Definition validateUserCredentials (e pw : string) : M User :=
  try_catch
    (user <- findUserByEmail e ;;
     match user with
     | None => throw (InvalidInputException "Invalid credentials")
     | Some u =>
         isPasswordValid <- bcrypt_compare_async pw (password u) ;;
         if isPasswordValid : bool then ret u
         else throw (InvalidInputException "Invalid credentials")
     end)
    (fun error =>
       match error with
       | InvalidInputException _ => throw error
       | _ => throw (UnexpectedErrorException "Error validating credentials" None)
       end).

(** *** The command surface

    The mutation commands of both services behind one type, as the
    dispatcher sees them ([create_post], [update_post], [delete_post] in
    [posts.controller.ts], and their user counterparts). *)

Inductive Command : Type :=
| CreatePost (dto : gmap string string)
| UpdatePost (id : string) (patch : gmap string string)
| DeletePost (id : string)
| CreateUser (dto : CreateUserDto)
| UpdateUser (id : string) (patch : UserPatch)
| DeleteUser (id : string).

Inductive Reply : Type :=
| PostReply (p : option Post)
| UserReply (u : User)
| VoidReply.

Definition fmapM {A B} (f : A -> B) (m : M A) : M B :=
  a <- m ;; ret (f a).

Definition execute (c : Command) : M Reply :=
  match c with
  | CreatePost dto => fmapM (fun p => PostReply (Some p)) (createPost dto)
  | UpdatePost id patch => fmapM PostReply (updatePost id patch)
  | DeletePost id => fmapM (fun _ => VoidReply) (deletePost id)
  | CreateUser dto => fmapM UserReply (createUser dto)
  | UpdateUser id patch => fmapM UserReply (updateUser id patch)
  | DeleteUser id => fmapM (fun _ => VoidReply) (deleteUser id)
  end.

End Services.

(** The store call that carries out a mutation command. *)
Definition write_op (c : Command) : Op :=
  match c with
  | CreatePost _ => PostCreate
  | UpdatePost _ _ => PostFindOneAndUpdate
  | DeletePost _ => PostDeleteOne
  | CreateUser _ => UserSave
  | UpdateUser _ _ => UserFindByIdAndUpdate
  | DeleteUser _ => UserFindByIdAndDelete
  end.

Definition is_post_command (c : Command) : bool :=
  match c with
  | CreatePost _ | UpdatePost _ _ | DeletePost _ => true
  | _ => false
  end.

Definition is_return {A} (o : Outcome A) : bool :=
  match o with Return _ => true | Throw _ => false end.

(** The adapter calls made between two worlds of one run. *)
Definition new_calls (w w' : World) : list Op := drop (length (trace w)) (trace w').

(** No document of the collection carries the identifier. *)
Definition post_absent (id : string) (w : World) : Prop :=
  forall p, In p (posts w) -> post_id p <> id.
Definition user_absent (id : string) (w : World) : Prop :=
  forall u, In u (users w) -> user_id u <> id.
Definition email_absent (e : string) (w : World) : Prop :=
  forall u, In u (users w) -> email u <> e.

(** ** The rest of the posts module *)

(** [this.logger.log(line)] *)
Definition logger_log (line : string) : M unit :=
  fun w => (Return tt, push_console line w).

(** *** The inbound event handlers of [PostsService] *)

Definition handlePostCreated (post : Post) : M unit :=
  logger_log ("Handling post created event for post: " +:+ post_id post).

Definition handlePostUpdated (post : Post) : M unit :=
  logger_log ("Handling post updated event for post: " +:+ post_id post).

Definition handlePostDeleted (postId : string) : M unit :=
  logger_log ("Handling post deleted event for post: " +:+ postId).

(** *** [PostsController]

    A reply is the call [ApiResponseUtil.success(data, message, path, status)]
    that builds it; the utility and the [HTTP_STATUS] table are not under
    [src], so the call is kept as it is written, with its arguments. *)

Inductive HttpStatus : Type := HTTP_STATUS_CREATED.

Record ApiResponse (T : Type) : Type := ApiResponseUtil_success {
  api_data : T;
  api_message : string;
  api_path : string;
  api_status : option HttpStatus     (* the optional fourth argument *)
}.
Arguments ApiResponseUtil_success {T} _ _ _ _.
Arguments api_data {T} _.
Arguments api_message {T} _.
Arguments api_path {T} _.
Arguments api_status {T} _.

(** A call whose promise is dropped: it runs, and whatever it would throw is
    lost to the caller. *)
Definition not_awaited {A} (m : M A) : M unit :=
  fun w => (Return tt, snd (m w)).

Section Controller.

Variable env : Env.

Definition on_post_created (post : Post) : M unit :=
  not_awaited (handlePostCreated post).

Definition on_post_updated (post : Post) : M unit :=
  not_awaited (handlePostUpdated post).

Definition on_post_deleted (id : string) : M unit :=
  not_awaited (handlePostDeleted id).

Definition create_post (createPostDto : gmap string string)
  : M (ApiResponse Post) :=
  post <- createPost env createPostDto ;;
  ret (ApiResponseUtil_success post "Post created successfully" "/posts"
         (Some HTTP_STATUS_CREATED)).

Definition get_posts : M (ApiResponse (list Post)) :=
  posts <- posts_findAll env ;;
  ret (ApiResponseUtil_success posts "Posts retrieved successfully" "/posts" None).

Definition get_post (id : string) : M (ApiResponse (option Post)) :=
  post <- findPostById env id ;;
  ret (ApiResponseUtil_success post "Post retrieved successfully"
         ("/posts/" +:+ id) None).

Definition update_post (id : string) (updateData : gmap string string)
  : M (ApiResponse (option Post)) :=
  post <- updatePost env id updateData ;;
  ret (ApiResponseUtil_success post "Post updated successfully"
         ("/posts/" +:+ id) None).

(** the data of the reply is [null] *)
Definition delete_post (id : string) : M (ApiResponse (option Post)) :=
  deletePost env id ;;
  ret (ApiResponseUtil_success None "Post deleted successfully"
         ("/posts/" +:+ id) None).

End Controller.

(** ** [DatabaseModule]

    The six values read from the [ConfigService]; a key that is not configured
    reads as [undefined].  Each value is the text that the template literal
    interpolates for it. *)
Record DatabaseConfig : Type := mkDatabaseConfig {
  db_type : option string;
  db_host : option string;
  db_port : option string;
  db_database : option string;
  db_username : option string;
  db_password : option string
}.

(** [`${v}`] *)
Definition interpolate (v : option string) : string := default "undefined" v.

Definition mongo_uri (dbConfig : DatabaseConfig) : string :=
  interpolate (db_type dbConfig) +:+ "://" +:+
  interpolate (db_username dbConfig) +:+ ":" +:+
  interpolate (db_password dbConfig) +:+ "@" +:+
  interpolate (db_host dbConfig) +:+ ":" +:+
  interpolate (db_port dbConfig) +:+ "/" +:+
  interpolate (db_database dbConfig) +:+ "?authSource=admin".

(** The same configuration with other credentials. *)
Definition with_credentials (c : DatabaseConfig) (u p : option string)
  : DatabaseConfig :=
  mkDatabaseConfig (db_type c) (db_host c) (db_port c) (db_database c) u p.

(** ** Store invariants *)

(** Identifiers, and e-mail addresses, are held by one document each. *)
Definition unique_post_ids (w : World) : Prop := NoDup (map post_id (posts w)).
Definition unique_user_ids (w : World) : Prop := NoDup (map user_id (users w)).
Definition unique_emails (w : World) : Prop := NoDup (map email (users w)).

(** The collections and the bus are the same in both worlds. *)
Definition same_store (w w' : World) : Prop :=
  users w' = users w /\ posts w' = posts w /\ bus w' = bus w.


(** ** Concrete data

    Environments, documents and worlds on which the services are run. *)

(** A stand-in for bcryptjs that computes: the "hash" is the data behind a
    marker, so it is never the data itself and [compare] accepts exactly the
    data it was made from. *)
Definition toy_hash (s : string) (n : nat) (d : string) : string := "$2a$" +:+ d.
Definition toy_compare (d encrypted : string) : bool :=
  String.eqb encrypted ("$2a$" +:+ d).

Definition env_ok : Env := mkEnv no_faults "salt" "id-1".
Definition env_bus_down : Env :=
  mkEnv (fun o => if is_emit o then Some "bus unreachable" else None) "salt" "id-1".
Definition env_store_down : Env :=
  mkEnv (fun o => if is_write o then Some "store unreachable" else None) "salt" "id-1".

Definition hello : gmap string string := {[ "title" := "hello" ]}.
Definition hello_post : Post := mkPost "id-1" hello.
Definition one_post : World := mkWorld [] [hello_post] [] [] [].

Definition alice_dto : CreateUserDto :=
  mkCreateUserDto "a@x.com" "p" None None None ∅.
Definition alice : User :=
  mkUser "id-1" "a@x.com" "$2a$p" "user" true false ∅.
Definition bob : User :=
  mkUser "id-2" "b@x.com" "$2a$q" "user" true false ∅.
Definition one_user : World := mkWorld [alice] [] [] [] [].
Definition two_users : World := mkWorld [alice; bob] [] [] [] [].

Definition no_patch : UserPatch := mkUserPatch None None None None None ∅.
Definition email_patch (e : string) : UserPatch :=
  mkUserPatch (Some e) None None None None ∅.
Definition password_patch (pw : string) : UserPatch :=
  mkUserPatch None (Some pw) None None None ∅.

Definition carol_dto : CreateUserDto :=
  mkCreateUserDto "c@x.com" "p" (Some "admin") (Some false) (Some true) ∅.
Definition carol : User :=
  mkUser "id-1" "c@x.com" "$2a$p" "admin" false true ∅.

Definition env_reads_down : Env :=
  mkEnv (fun o => match o with
                  | UserFind | PostFind | PostFindOne => Some "store unreachable"
                  | _ => None
                  end) "salt" "id-1".
Definition env_next : Env := mkEnv no_faults "salt" "id-3".
Definition two_posts : World :=
  mkWorld [] [hello_post; mkPost "id-2" {[ "title" := "second" ]}] [] [] [].
(** * Properties *)

Ltac unfold_services :=
  unfold execute, fmapM,
    createPost, updatePost, deletePost, findPostById, posts_findAll,
    createUser, updateUser, deleteUser, findUserById,
    validateUserCredentials, users_findAll, findUserByEmail,
    repo_find, repo_findOne, repo_create, repo_findOneAndUpdate, repo_deleteOne,
    model_find, model_findOne, model_findById, model_save,
    model_findByIdAndUpdate, model_findByIdAndDelete,
    emit, bcrypt_hash_async, bcrypt_compare_async,
    call, try_catch, bind, ret, throw, console_error,
    post_with_id, user_with_id, user_with_email.

(** One step of symbolic execution: decide the next adapter call or lookup
    from the hypotheses when they say, by cases otherwise. *)
Ltac run_step :=
  match goal with
  | H : faults ?e ?o = _ |- context [faults ?e ?o] => rewrite H
  | H : List.find ?f ?l = _ |- context [List.find ?f ?l] => rewrite H
  | H : post_with_id ?i ?w = _ |- context [List.find (has_id ?i) (posts ?w)] =>
      unfold post_with_id in H; rewrite H
  | H : user_with_id ?i ?w = _ |- context [List.find (has_user_id ?i) (users ?w)] =>
      unfold user_with_id in H; rewrite H
  | H : user_with_email ?i ?w = _ |- context [List.find (has_email ?i) (users ?w)] =>
      unfold user_with_email in H; rewrite H
  | |- context [match faults ?e ?o with _ => _ end] =>
      destruct (faults e o) eqn:?
  | |- context [match List.find ?f ?l with _ => _ end] =>
      destruct (List.find f l) eqn:?
  | |- context [match ?x with Some _ => _ | None => _ end] =>
      destruct x eqn:?
  | |- context [if ?b then _ else _] => destruct b eqn:?
  end.

Ltac run := unfold_services; repeat (simpl; run_step); simpl.

Ltac norm_calls :=
  unfold new_calls; simpl;
  rewrite <- ?app_assoc, ?drop_app_length; simpl.

(** ** Lists of documents *)

Section FirstMatch.
Context {A : Type} (f : A -> bool).

Lemma find_absent (l : list A) :
  (forall x, In x l -> f x = false) -> List.find f l = None.
Proof.
  induction l as [|a l IH]; intros H; simpl; [reflexivity|].
  rewrite (H a (or_introl eq_refl)). apply IH. intros x Hx. apply H. now right.
Qed.


Lemma remove_first_absent (l : list A) :
  List.find f l = None -> remove_first f l = l.
Proof.
  induction l as [|a l IH]; simpl; [reflexivity|].
  destruct (f a); [discriminate|]. intros H. now rewrite IH.
Qed.

(** After the update the filter selects the updated document, as long as
    the update keeps it matching. *)
Lemma find_update_first g (l : list A) x :
  List.find f l = Some x -> f (g x) = true ->
  List.find f (update_first f g l) = Some (g x).
Proof.
  induction l as [|a l IH]; simpl; [discriminate|].
  destruct (f a) eqn:Ha.
  - intros [= ->] Hg. simpl. now rewrite Hg.
  - intros Hx Hg. simpl. rewrite Ha. auto.
Qed.

End FirstMatch.

(** With unique e-mail addresses, the filter by e-mail selects the holder. *)
Lemma find_by_unique_email (us : list User) (u : User) :
  NoDup (map email us) -> In u us -> List.find (has_email (email u)) us = Some u.
Proof.
  induction us as [|a us IH]; simpl; [tauto|].
  intros Hnd [->|Hin].
  - unfold has_email. now rewrite String.eqb_refl.
  - apply NoDup_cons_1_1 in Hnd as Ha. apply NoDup_cons_1_2 in Hnd.
    unfold has_email at 1. destruct (String.eqb_spec (email a) (email u)) as [E|_].
    + exfalso. apply Ha. rewrite E. apply list_elem_of_In, in_map, Hin.
    + auto.
Qed.

Lemma has_id_set_post_fields id patch p :
  has_id id (set_post_fields patch p) = has_id id p.
Proof. reflexivity. Qed.

Lemma has_user_id_set_user_fields id patch u :
  has_user_id id (set_user_fields patch u) = has_user_id id u.
Proof. reflexivity. Qed.

Lemma post_absent_lookup id w : post_absent id w -> post_with_id id w = None.
Proof.
  intros H. apply find_absent. intros p Hp. apply String.eqb_neq, H, Hp.
Qed.

Lemma user_absent_lookup id w : user_absent id w -> user_with_id id w = None.
Proof.
  intros H. apply find_absent. intros p Hp. apply String.eqb_neq, H, Hp.
Qed.

Lemma email_absent_lookup e w : email_absent e w -> user_with_email e w = None.
Proof.
  intros H. apply find_absent. intros p Hp. apply String.eqb_neq, H, Hp.
Qed.


Section Properties.

Variable bcrypt_hash : string -> nat -> string -> string.
Variable bcrypt_compare : string -> string -> bool.
Variable USER : string.

Implicit Types (env : Env) (w : World) (c : Command) (id : string).

Abbreviation exec := (execute bcrypt_hash USER).

(** C3. When the store call that carries out a create, update or delete
    rejects, the command fails, the collections and the bus are as before,
    and no publish was even attempted. *)
Theorem no_event_when_store_write_fails env c w m :
  faults env (write_op c) = Some m ->
  forall r w', exec env c w = (r, w') ->
    is_return r = false
    /\ bus w' = bus w
    /\ users w' = users w /\ posts w' = posts w
    /\ List.filter is_emit (new_calls w w') = [].
Proof.
  intros Hf r w'. destruct c; simpl in Hf; run;
    intros [= <- <-]; norm_calls; auto.
Qed.

(** Users commands never reach the publisher: their whole behaviour is
    the same under two environments that differ on [BusEmit] only. *)
Lemma user_commands_ignore_publisher env env' c w :
  is_post_command c = false ->
  (forall o, o <> BusEmit -> faults env' o = faults env o) ->
  salt env' = salt env -> fresh_id env' = fresh_id env ->
  exec env' c w = exec env c w.
Proof.
  intros Hc Hf Hs Hi.
  assert (Hrw : forall o, is_emit o = false -> faults env' o = faults env o)
    by (intros o Ho; apply Hf; intros ->; discriminate).
  destruct c; try discriminate; unfold_services;
    rewrite ?Hs, ?Hi, ?(Hrw UserFindOne), ?(Hrw UserFindById), ?(Hrw UserSave),
      ?(Hrw UserFindByIdAndUpdate), ?(Hrw UserFindByIdAndDelete),
      ?(Hrw BcryptHash) by reflexivity; reflexivity.
Qed.

(** C1, as the code has it.  When the store write of a post command has
    been carried out and the publish that follows rejects, the rejection is
    logged and the command fails with [UnexpectedErrorException]; the write
    stays in the store and nothing reaches the bus.  Users commands do not
    publish, so a failing publisher cannot make them fail. *)
Theorem publish_failure_fails_post_command env w m :
  faults env BusEmit = Some m ->
  (forall dto, faults env PostCreate = None ->
     let '(r, w') := createPost env dto w in
     r = Throw (UnexpectedErrorException "Error creating post" None)
     /\ posts w' = posts w ++ [mkPost (fresh_id env) dto]
     /\ bus w' = bus w
     /\ console w' = console w ++ ["Error creating post:"])
  /\ (forall id patch p,
        post_with_id id w = Some p ->
        faults env PostFindOne = None ->
        faults env PostFindOneAndUpdate = None ->
        let '(r, w') := updatePost env id patch w in
        r = Throw (UnexpectedErrorException "Error updating post" None)
        /\ posts w' = update_first (has_id id) (set_post_fields patch) (posts w)
        /\ bus w' = bus w
        /\ console w' = console w ++ ["Error updating post:"])
  /\ (forall id p,
        post_with_id id w = Some p ->
        faults env PostFindOne = None ->
        faults env PostDeleteOne = None ->
        let '(r, w') := deletePost env id w in
        r = Throw (UnexpectedErrorException "Error deleting post" (Some (Error m)))
        /\ posts w' = remove_first (has_id id) (posts w)
        /\ bus w' = bus w
        /\ console w' = console w ++ ["Error deleting post:"])
  /\ (forall c env', is_post_command c = false ->
        (forall o, o <> BusEmit -> faults env' o = faults env o) ->
        salt env' = salt env -> fresh_id env' = fresh_id env ->
        exec env' c w = exec env c w).
Proof.
  intros Hb. repeat split.
  - intros dto Hc. run. norm_calls. auto.
  - intros id patch p Hp H1 H2. run. norm_calls. auto.
  - intros id p Hp H1 H2. run. norm_calls. auto.
  - intros c env'. apply user_commands_ignore_publisher.
Qed.

(** C2, as the code has it.  A post command that returns has delivered
    exactly one event, named after the command, after its store write, and
    the payload is the document as the store now has it (the identifier
    for a delete).  Users commands deliver nothing and never call the
    publisher. *)
Theorem post_mutation_publishes_one_event env w :
  (forall dto p w', createPost env dto w = (Return p, w') ->
     bus w' = bus w ++ [mkEvent "post_created" (EntityPayload (Some p))]
     /\ In p (posts w')
     /\ trace w' = trace w ++ [PostCreate; BusEmit])
  /\ (forall id patch r w', updatePost env id patch w = (Return r, w') ->
        exists p, r = Some p
        /\ post_with_id id w' = Some p
        /\ bus w' = bus w ++ [mkEvent "post_updated" (EntityPayload (Some p))]
        /\ trace w' = trace w ++ [PostFindOne; PostFindOneAndUpdate; BusEmit])
  /\ (forall id u w', deletePost env id w = (Return u, w') ->
        bus w' = bus w ++ [mkEvent "post_deleted" (IdPayload id)]
        /\ trace w' = trace w ++ [PostFindOne; PostDeleteOne; BusEmit])
  /\ (forall c r w', is_post_command c = false -> exec env c w = (r, w') ->
        bus w' = bus w /\ List.filter is_emit (new_calls w w') = []).
Proof.
  split; [|split; [|split]].
  - intros dto p w'. run; intros [= <- <-]. norm_calls.
    auto using in_elt.
  - intros id patch r w'. run; try discriminate. intros [= <- <-].
    exists (set_post_fields patch p). norm_calls. repeat split.
    apply find_update_first; auto.
    rewrite has_id_set_post_fields. eapply find_some; eauto.
  - intros id u w'. run; try discriminate. intros [= _ <-]. norm_calls. auto.
  - intros c r w' Hc. destruct c; try discriminate; run; intros [= <- <-];
      norm_calls; auto.
Qed.

(** C4, as the code has it.  For an identifier that no document carries,
    [updatePost], [deletePost] and [updateUser] look the target up, fail with
    [ResourceNotFoundException] and make no other store call.
    [deleteUser] fails the same way, but it has no lookup of its own: its
    one store call is [findByIdAndDelete], which finds nothing to remove. *)
Theorem absent_identifier_is_not_found env w id :
  (post_absent id w -> faults env PostFindOne = None ->
     (forall patch,
        let '(r, w') := updatePost env id patch w in
        r = Throw (ResourceNotFoundException "Post not found")
        /\ trace w' = trace w ++ [PostFindOne]
        /\ posts w' = posts w /\ bus w' = bus w)
     /\ (let '(r, w') := deletePost env id w in
         r = Throw (ResourceNotFoundException "Post")
         /\ trace w' = trace w ++ [PostFindOne]
         /\ posts w' = posts w /\ bus w' = bus w))
  /\ (user_absent id w -> faults env UserFindById = None ->
      forall patch,
        let '(r, w') := updateUser env id patch w in
        r = Throw (ResourceNotFoundException "User not found")
        /\ trace w' = trace w ++ [UserFindById]
        /\ users w' = users w)
  /\ (user_absent id w -> faults env UserFindByIdAndDelete = None ->
      let '(r, w') := deleteUser env id w in
      r = Throw (ResourceNotFoundException "User not found")
      /\ trace w' = trace w ++ [UserFindByIdAndDelete]
      /\ users w' = users w).
Proof.
  split; [|split].
  - intros Ha Hf. apply post_absent_lookup in Ha. split; [intros patch|];
      run; norm_calls; auto.
  - intros Ha Hf patch. apply user_absent_lookup in Ha. run. norm_calls. auto.
  - intros Ha Hf. apply user_absent_lookup in Ha. run. norm_calls.
    repeat split. now apply remove_first_absent.
Qed.


(** What [createUser] stores as the password is the bcrypt hash. *)
Lemma createUser_stores_hash env w dto u w' :
  createUser bcrypt_hash USER env dto w = (Return u, w') ->
  password u = bcrypt_hash (salt env) SALT_ROUNDS (dto_password dto)
  /\ In u (users w').
Proof.
  run; intros [= <- <-]; simpl; auto using in_elt.
Qed.

(** What [updateUser] stores as the password is the patch's value itself. *)
Lemma updateUser_stores_patch_password env w id patch existing pw :
  user_with_id id w = Some existing ->
  faults env UserFindById = None ->
  faults env UserFindByIdAndUpdate = None ->
  patch_email patch = None ->
  patch_password patch = Some pw ->
  exists u w',
    updateUser env id patch w = (Return u, w')
    /\ user_with_id id w' = Some u /\ password u = pw.
Proof.
  intros Hid H1 H2 He Hp. unfold_services. rewrite H1, He. simpl.
  pose proof Hid as Hid'. unfold user_with_id in Hid. rewrite Hid. simpl.
  rewrite H2. simpl. rewrite Hid. simpl.
  eexists _, _. split; [reflexivity|]. simpl. split.
  - apply find_update_first; auto.
    rewrite has_user_id_set_user_fields. eapply find_some; eauto.
  - now rewrite Hp.
Qed.

(** C7. With a stored user whose password is the hash of [pw], validating
    its e-mail with [pw] returns that user.  With a password that does not
    match, the failure is [InvalidInputException "Invalid credentials"],
    the very exception thrown for an e-mail that no user holds. *)
Theorem credential_check env w u :
  (forall s n d, bcrypt_compare d (bcrypt_hash s n d) = true) ->
  faults env UserFindOne = None ->
  faults env BcryptCompare = None ->
  NoDup (map email (users w)) ->
  In u (users w) ->
  (forall s pw, password u = bcrypt_hash s SALT_ROUNDS pw ->
     let '(r, w') := validateUserCredentials bcrypt_compare env (email u) pw w in
     r = Return u /\ users w' = users w)
  /\ (forall pw, bcrypt_compare pw (password u) = false ->
        fst (validateUserCredentials bcrypt_compare env (email u) pw w)
        = Throw (InvalidInputException "Invalid credentials")
        /\ forall e' pw' w2, email_absent e' w2 ->
             fst (validateUserCredentials bcrypt_compare env e' pw' w2)
             = fst (validateUserCredentials bcrypt_compare env (email u) pw w)).
Proof.
  intros Hsound H1 H2 Hnd Hin.
  pose proof (find_by_unique_email _ _ Hnd Hin) as Hu.
  split.
  - intros s pw Hpw. unfold_services. rewrite H1. simpl. rewrite Hu. simpl.
    rewrite H2. simpl. rewrite Hpw, Hsound. simpl. auto.
  - intros pw Hpw.
    assert (E : fst (validateUserCredentials bcrypt_compare env (email u) pw w)
                = Throw (InvalidInputException "Invalid credentials")).
    { unfold_services. rewrite H1. simpl. rewrite Hu. simpl.
      rewrite H2. simpl. now rewrite Hpw. }
    split; [exact E|]. intros e' pw' w2 Ha. rewrite E.
    apply email_absent_lookup in Ha. unfold_services. rewrite H1. simpl.
    unfold user_with_email in Ha. now rewrite Ha.
Qed.

(** The users side of read-one: an absent identifier is a
    [ResourceNotFoundException]. *)
Lemma findUserById_absent env w id :
  user_absent id w -> faults env UserFindById = None ->
  fst (findUserById env id w) = Throw (ResourceNotFoundException "User not found").
Proof.
  intros Ha Hf. apply user_absent_lookup in Ha. run. reflexivity.
Qed.

(** The posts side of read-one hands the store's [null] to the caller. *)
Lemma findPostById_absent env w id :
  post_absent id w -> faults env PostFindOne = None ->
  fst (findPostById env id w) = Return None.
Proof.
  intros Ha Hf. apply post_absent_lookup in Ha. run. reflexivity.
Qed.

(** [findPostById] adds nothing to the repository's answer: the outcome is
    the one of [findOne], whatever it is. *)
Lemma findPostById_is_pass_through env w id :
  fst (findPostById env id w) = fst (repo_findOne env id w).
Proof.
  unfold findPostById, try_catch, bind, ret, throw, console_error.
  destruct (repo_findOne env id w) as [[o|e] w1]; reflexivity.
Qed.

(** C9. The user that [createUser] returns is stored; a missing [role],
    [isActive] or [isEmailVerified] is [USER], [true] or [false], and a
    supplied one is kept (for [role], a member of the enum, which is a
    non-empty string). *)
Theorem createUser_defaults env w dto u w' :
  createUser bcrypt_hash USER env dto w = (Return u, w') ->
  In u (users w')
  /\ (dto_role dto = None -> role u = USER)
  /\ (dto_isActive dto = None -> isActive u = true)
  /\ (dto_isEmailVerified dto = None -> isEmailVerified u = false)
  /\ (forall r, dto_role dto = Some r -> r <> "" -> role u = r)
  /\ (forall b, dto_isActive dto = Some b -> isActive u = b)
  /\ (forall b, dto_isEmailVerified dto = Some b -> isEmailVerified u = b).
Proof.
  unfold_services.
  destruct (faults env UserFindOne); simpl;
    [discriminate|destruct (List.find _ _); simpl; [discriminate|]].
  destruct (faults env BcryptHash); simpl; [discriminate|].
  destruct (faults env UserSave); simpl; [discriminate|].
  intros [= <- <-]. simpl. split; [auto using in_elt|].
  repeat split.
  - now intros ->.
  - now intros ->.
  - now intros ->.
  - intros r -> Hr. apply String.eqb_neq in Hr. unfold truthy. now rewrite Hr.
  - now intros b ->.
  - now intros b ->.
Qed.

(** C10. An update of an existing user whose patch carries the user's own
    e-mail goes from the look-up by identifier straight to the write and
    returns the updated user: the look-up by e-mail is not made, although
    the store holds that e-mail.  The look-up by e-mail is made exactly
    when the patch carries a non-empty e-mail other than the current one. *)
Theorem own_email_update_skips_uniqueness_check env w id existing :
  user_with_id id w = Some existing ->
  faults env UserFindById = None ->
  (forall patch,
     patch_email patch = Some (email existing) ->
     faults env UserFindByIdAndUpdate = None ->
     let '(r, w') := updateUser env id patch w in
     r = Return (set_user_fields patch existing)
     /\ trace w' = trace w ++ [UserFindById; UserFindByIdAndUpdate]
     /\ In existing (users w)
     /\ user_with_id id w' = Some (set_user_fields patch existing))
  /\ (forall patch,
        In UserFindOne (new_calls w (snd (updateUser env id patch w)))
        <-> exists e, patch_email patch = Some e /\ e <> "" /\ e <> email existing).
Proof using Type.
  clear bcrypt_hash bcrypt_compare USER.
  intros Hid Hf. pose proof Hid as Hid'. unfold user_with_id in Hid'.
  split.
  - intros patch Hp Hw. unfold_services. rewrite Hf, Hp. simpl.
    rewrite Hid'. simpl. rewrite String.eqb_refl, andb_false_r. simpl.
    rewrite Hw. simpl. rewrite Hid'. simpl. norm_calls.
    repeat split.
    + eapply find_some; eauto.
    + apply find_update_first; auto.
      rewrite has_user_id_set_user_fields. eapply find_some; eauto.
  - intros patch. unfold_services. rewrite Hf. simpl. rewrite Hid'. simpl.
    destruct (patch_email patch) as [e|] eqn:Hp; simpl.
    + unfold truthy.
      destruct (String.eqb_spec e "") as [E1|E1];
        destruct (String.eqb_spec e (email existing)) as [E2|E2]; simpl.
      4: { split; [eauto|]. intros _. repeat (run_step; simpl); norm_calls;
           simpl; auto. }
      all: split; [|intros (e' & [= <-] & ? & ?); congruence].
      all: repeat (run_step; simpl); norm_calls; simpl; intuition discriminate.
    + split; [|intros (e' & [=] & _)].
      repeat (run_step; simpl); norm_calls; simpl; intuition discriminate.
Qed.

End Properties.

(** * Concrete runs *)

Lemma toy_compare_hash s n d : toy_compare d (toy_hash s n d) = true.
Proof. apply String.eqb_refl. Qed.

(** C1, counterexample.  The store accepts the new post and the publisher
    rejects: the post is in the collection, and [createPost] throws. *)
Lemma createPost_fails_when_publish_fails :
  createPost env_bus_down hello empty_world
  = (Throw (UnexpectedErrorException "Error creating post" None),
     mkWorld [] [hello_post] [] ["Error creating post:"] [PostCreate; BusEmit]).
Proof. vm_compute. reflexivity. Qed.

Lemma publish_failure_fails_post_command_witness :
  (let '(r, w') := createPost env_bus_down hello empty_world in
   r = Throw (UnexpectedErrorException "Error creating post" None)
   /\ posts w' = [hello_post] /\ bus w' = []
   /\ console w' = ["Error creating post:"])
  /\ (let '(r, w') := updatePost env_bus_down "id-1" {[ "title" := "bye" ]} one_post in
      r = Throw (UnexpectedErrorException "Error updating post" None)
      /\ posts w' = [mkPost "id-1" {[ "title" := "bye" ]}] /\ bus w' = []
      /\ console w' = ["Error updating post:"])
  /\ (let '(r, w') := deletePost env_bus_down "id-1" one_post in
      r = Throw (UnexpectedErrorException "Error deleting post"
                   (Some (Error "bus unreachable")))
      /\ posts w' = [] /\ bus w' = []
      /\ console w' = ["Error deleting post:"])
  /\ execute toy_hash "user" env_bus_down (CreateUser alice_dto) empty_world
     = execute toy_hash "user" env_ok (CreateUser alice_dto) empty_world.
Proof.
  pose proof (publish_failure_fails_post_command toy_hash "user"
                env_bus_down empty_world "bus unreachable" eq_refl) as (H1 & _).
  pose proof (publish_failure_fails_post_command toy_hash "user"
                env_bus_down one_post "bus unreachable" eq_refl) as (_ & H2 & H3 & _).
  pose proof (publish_failure_fails_post_command toy_hash "user"
                env_bus_down empty_world "bus unreachable" eq_refl) as (_ & _ & _ & H4).
  split; [exact (H1 hello eq_refl)|].
  split; [exact (H2 "id-1" {[ "title" := "bye" ]} hello_post eq_refl eq_refl eq_refl)|].
  split; [exact (H3 "id-1" hello_post eq_refl eq_refl eq_refl)|].
  symmetry. apply H4; try reflexivity.
  intros o Ho. destruct o; try reflexivity. now destruct Ho.
Defined.

(** C2, counterexample.  A user create that succeeds: the user is stored and
    returned, the bus has received nothing, the publisher was not called. *)
Lemma createUser_publishes_nothing :
  createUser toy_hash "user" env_ok alice_dto empty_world
  = (Return alice, mkWorld [alice] [] [] [] [UserFindOne; BcryptHash; UserSave]).
Proof. vm_compute. reflexivity. Qed.

Lemma post_mutation_publishes_one_event_witness :
  (bus (snd (createPost env_ok hello empty_world))
   = [mkEvent "post_created" (EntityPayload (Some hello_post))]
   /\ In hello_post (posts (snd (createPost env_ok hello empty_world)))
   /\ trace (snd (createPost env_ok hello empty_world)) = [PostCreate; BusEmit])
  /\ (exists p,
        Some (mkPost "id-1" {[ "title" := "bye" ]}) = Some p
        /\ post_with_id "id-1" (snd (updatePost env_ok "id-1" {[ "title" := "bye" ]} one_post))
           = Some p
        /\ bus (snd (updatePost env_ok "id-1" {[ "title" := "bye" ]} one_post))
           = [mkEvent "post_updated" (EntityPayload (Some p))]
        /\ trace (snd (updatePost env_ok "id-1" {[ "title" := "bye" ]} one_post))
           = [PostFindOne; PostFindOneAndUpdate; BusEmit])
  /\ (bus (snd (deletePost env_ok "id-1" one_post))
      = [mkEvent "post_deleted" (IdPayload "id-1")]
      /\ trace (snd (deletePost env_ok "id-1" one_post))
         = [PostFindOne; PostDeleteOne; BusEmit])
  /\ (bus (snd (execute toy_hash "user" env_ok (CreateUser alice_dto) empty_world)) = []
      /\ List.filter is_emit
           (new_calls empty_world
              (snd (execute toy_hash "user" env_ok (CreateUser alice_dto) empty_world)))
         = []).
Proof.
  pose proof (post_mutation_publishes_one_event toy_hash "user" env_ok empty_world)
    as (H1 & _ & _ & H4).
  pose proof (post_mutation_publishes_one_event toy_hash "user" env_ok one_post)
    as (_ & H2 & H3 & _).
  split; [|split; [|split]].
  - apply (H1 hello hello_post). vm_compute. reflexivity.
  - apply (H2 "id-1" {[ "title" := "bye" ]}). vm_compute. reflexivity.
  - apply (H3 "id-1" tt). vm_compute. reflexivity.
  - apply (H4 (CreateUser alice_dto) (Return (UserReply alice))); [reflexivity|].
    vm_compute. reflexivity.
Defined.

(** A write that the store rejects, for each command. *)
Lemma no_event_when_store_write_fails_witness :
  Forall (fun cw : Command * World =>
            let '(r, w') := execute toy_hash "user" env_store_down (fst cw) (snd cw) in
            is_return r = false
            /\ bus w' = bus (snd cw)
            /\ users w' = users (snd cw) /\ posts w' = posts (snd cw)
            /\ List.filter is_emit (new_calls (snd cw) w') = [])
    [ (CreatePost hello, empty_world);
      (UpdatePost "id-1" hello, one_post);
      (DeletePost "id-1", one_post);
      (CreateUser alice_dto, empty_world);
      (UpdateUser "id-1" (password_patch "q"), one_user);
      (DeleteUser "id-1", one_user) ].
Proof.
  repeat (apply List.Forall_cons;
          [ simpl fst; simpl snd;
            match goal with
            | |- context [execute _ _ ?e ?c ?w] =>
                destruct (execute toy_hash "user" e c w) as [r w'] eqn:E;
                exact (no_event_when_store_write_fails toy_hash "user" e c w
                         "store unreachable" eq_refl r w' E)
            end
          | ]).
  apply List.Forall_nil.
Defined.

(** C4, counterexample.  Deleting a user that is not there: the one store
    call made is [findByIdAndDelete], a write. *)
Lemma deleteUser_absent_calls_the_write_path :
  deleteUser env_ok "missing" empty_world
  = (Throw (ResourceNotFoundException "User not found"),
     mkWorld [] [] [] [] [UserFindByIdAndDelete])
  /\ existsb is_write (new_calls empty_world (snd (deleteUser env_ok "missing" empty_world)))
     = true.
Proof. split; reflexivity. Qed.

Lemma absent_identifier_is_not_found_witness :
  (fst (updatePost env_ok "missing" hello one_post)
   = Throw (ResourceNotFoundException "Post not found")
   /\ fst (deletePost env_ok "missing" one_post)
      = Throw (ResourceNotFoundException "Post"))
  /\ fst (updateUser env_ok "missing" no_patch one_user)
     = Throw (ResourceNotFoundException "User not found")
  /\ fst (deleteUser env_ok "missing" one_user)
     = Throw (ResourceNotFoundException "User not found").
Proof.
  assert (Hp : post_absent "missing" one_post)
    by (intros p [<-|[]]; discriminate).
  assert (Hu : user_absent "missing" one_user)
    by (intros u [<-|[]]; discriminate).
  destruct (absent_identifier_is_not_found env_ok one_post "missing") as (H1 & _).
  destruct (absent_identifier_is_not_found env_ok one_user "missing") as (_ & H2 & H3).
  destruct (H1 Hp eq_refl) as (Hup & Hdel).
  specialize (Hup hello). specialize (H2 Hu eq_refl no_patch).
  specialize (H3 Hu eq_refl).
  destruct (updatePost env_ok "missing" hello one_post).
  destruct (deletePost env_ok "missing" one_post).
  destruct (updateUser env_ok "missing" no_patch one_user).
  destruct (deleteUser env_ok "missing" one_user).
  simpl. intuition.
Defined.



(** C6, the failing run.  Alice's password is stored as a hash; after an
    update whose patch carries the new password ["q"], the stored password is
    ["q"] itself. *)
Theorem updateUser_stores_plaintext_password :
  updateUser env_ok "id-1" (password_patch "q") one_user
  = (Return (mkUser "id-1" "a@x.com" "q" "user" true false ∅),
     mkWorld [mkUser "id-1" "a@x.com" "q" "user" true false ∅] [] [] []
       [UserFindById; UserFindByIdAndUpdate]).
Proof. vm_compute. reflexivity. Qed.

Lemma credential_check_witness :
  (let '(r, w') := validateUserCredentials toy_compare env_ok "a@x.com" "p" two_users in
   r = Return alice /\ users w' = [alice; bob])
  /\ fst (validateUserCredentials toy_compare env_ok "a@x.com" "wrong" two_users)
     = Throw (InvalidInputException "Invalid credentials")
  /\ fst (validateUserCredentials toy_compare env_ok "nobody@x.com" "p" two_users)
     = fst (validateUserCredentials toy_compare env_ok "a@x.com" "wrong" two_users).
Proof.
  assert (Hnd : NoDup (map email (users two_users))).
  { simpl. repeat constructor; rewrite ?list_elem_of_In; simpl; intuition discriminate. }
  destruct (credential_check toy_hash toy_compare env_ok two_users alice
              toy_compare_hash eq_refl eq_refl Hnd (or_introl eq_refl)) as (Hok & Hbad).
  split; [exact (Hok "salt" "p" eq_refl)|].
  destruct (Hbad "wrong" eq_refl) as (Hw & Hsame).
  split; [exact Hw|].
  apply Hsame. intros u [<-|[<-|[]]]; discriminate.
Defined.

(** C8, the failing run.  Reading a post by an identifier that no post
    carries returns [null] to the caller. *)
Theorem findPostById_returns_null_for_absent_id :
  findPostById env_ok "missing" one_post
  = (Return None, mkWorld [] [hello_post] [] [] [PostFindOne]).
Proof. reflexivity. Qed.

Lemma createUser_defaults_witness :
  (In alice (users (snd (createUser toy_hash "user" env_ok alice_dto empty_world)))
   /\ role alice = "user" /\ isActive alice = true /\ isEmailVerified alice = false)
  /\ (In carol (users (snd (createUser toy_hash "user" env_ok carol_dto empty_world)))
      /\ role carol = "admin" /\ isActive carol = false /\ isEmailVerified carol = true).
Proof.
  split.
  - destruct (createUser_defaults toy_hash "user" env_ok empty_world alice_dto alice
                (snd (createUser toy_hash "user" env_ok alice_dto empty_world)))
      as (Hin & Hr & Ha & Hv & _).
    { vm_compute. reflexivity. }
    split; [exact Hin|]. split; [exact (Hr eq_refl)|].
    split; [exact (Ha eq_refl)|exact (Hv eq_refl)].
  - destruct (createUser_defaults toy_hash "user" env_ok empty_world carol_dto carol
                (snd (createUser toy_hash "user" env_ok carol_dto empty_world)))
      as (Hin & _ & _ & _ & Hr & Ha & Hv).
    { vm_compute. reflexivity. }
    split; [exact Hin|]. split; [apply (Hr "admin" eq_refl); discriminate|].
    split; [exact (Ha false eq_refl)|exact (Hv true eq_refl)].
Defined.

Lemma own_email_update_skips_uniqueness_check_witness :
  (let '(r, w') := updateUser env_ok "id-1" (email_patch "a@x.com") two_users in
   r = Return alice
   /\ trace w' = [UserFindById; UserFindByIdAndUpdate])
  /\ In UserFindOne
       (new_calls two_users (snd (updateUser env_ok "id-1" (email_patch "c@x.com") two_users))).
Proof.
  destruct (own_email_update_skips_uniqueness_check env_ok two_users "id-1" alice
              eq_refl eq_refl) as (Hsame & Hiff).
  split.
  - pose proof (Hsame (email_patch "a@x.com") eq_refl eq_refl) as H.
    destruct (updateUser env_ok "id-1" (email_patch "a@x.com") two_users).
    destruct H as (-> & -> & _). split; reflexivity.
  - apply Hiff. exists "c@x.com". repeat split; discriminate.
Defined.

(** * Further properties of the two services, the controller and the
      database module *)

Ltac unfold_controller :=
  unfold create_post, get_posts, get_post, update_post, delete_post,
    on_post_created, on_post_updated, on_post_deleted, not_awaited,
    handlePostCreated, handlePostUpdated, handlePostDeleted, logger_log.

(** X1. The read operations of both services, the credential check and the
    inbound event handlers leave the two collections and the bus as they
    found them, whatever the store and bcrypt do. *)
Theorem reads_change_nothing bcrypt_compare env w :
  same_store w (snd (users_findAll env w))
  /\ same_store w (snd (posts_findAll env w))
  /\ (forall e, same_store w (snd (findUserByEmail env e w)))
  /\ (forall id, same_store w (snd (findUserById env id w)))
  /\ (forall id, same_store w (snd (findPostById env id w)))
  /\ (forall e pw,
        same_store w (snd (validateUserCredentials bcrypt_compare env e pw w)))
  /\ (forall p id,
        same_store w (snd (on_post_created p w))
        /\ same_store w (snd (on_post_updated p w))
        /\ same_store w (snd (on_post_deleted id w))).
Proof.
  unfold same_store.
  repeat match goal with
         | |- _ /\ _ => split
         | |- forall _, _ => intro
         end;
    unfold_controller; run; auto.
Qed.


(** X3. [findAll] of either service and [findPostById] have no translation
    of their own: when the store rejects, the caller gets the store's error
    as it is ([findPostById] logs it first). *)
Theorem unguarded_reads_rethrow_the_store_error env w m :
  (faults env UserFind = Some m ->
     fst (users_findAll env w) = Throw (Error m))
  /\ (faults env PostFind = Some m ->
       fst (posts_findAll env w) = Throw (Error m))
  /\ (faults env PostFindOne = Some m -> forall id,
       let '(r, w') := findPostById env id w in
       r = Throw (Error m)
       /\ console w' = console w ++ ["Error finding post:"]).
Proof.
  repeat split; intros; run; auto.
Qed.


(** X5. A command that throws has changed neither collection and delivered
    no event, with one exception: a post command whose store write went
    through and whose publish was rejected. *)
Theorem failed_command_changes_nothing bcrypt_hash USER env c w e w' :
  execute bcrypt_hash USER env c w = (Throw e, w') ->
  same_store w w'
  \/ (is_post_command c = true
      /\ faults env (write_op c) = None
      /\ faults env BusEmit <> None
      /\ users w' = users w /\ bus w' = bus w).
Proof.
  unfold same_store.
  destruct c; run; intros [= <- <-]; simpl; auto;
    try (right; repeat split; auto; discriminate).
  all: left; repeat split; auto using remove_first_absent.
Qed.

(** X6. A command delivers an event exactly when it is a post command that
    returns, and then it delivers one; in every other case the bus is as
    before. *)
Theorem event_iff_post_command_returns bcrypt_hash USER env c w r w' :
  execute bcrypt_hash USER env c w = (r, w') ->
  if is_post_command c && is_return r
  then exists ev, bus w' = bus w ++ [ev]
  else bus w' = bus w.
Proof.
  intros H.
  replace r with (fst (execute bcrypt_hash USER env c w)) by now rewrite H.
  replace w' with (snd (execute bcrypt_hash USER env c w)) by now rewrite H.
  clear H. destruct c; run; eauto.
Qed.

(** X7. A post command never touches the users collection, and a user
    command never touches the posts collection. *)
Theorem commands_keep_to_their_collection bcrypt_hash USER env c w r w' :
  execute bcrypt_hash USER env c w = (r, w') ->
  if is_post_command c then users w' = users w else posts w' = posts w.
Proof.
  destruct c; run; intros [= <- <-]; reflexivity.
Qed.

(** ** More on lists of documents *)

Section KeyedDocuments.
Context {A B : Type} (f : A -> bool) (h : A -> B).

Lemma find_app_last (l : list A) x :
  List.find f l = None -> f x = true -> List.find f (l ++ [x]) = Some x.
Proof.
  induction l as [|a l IH]; simpl; intros Hn Hx.
  - now rewrite Hx.
  - destruct (f a); [discriminate|auto].
Qed.

Lemma find_app_first (l : list A) x y :
  List.find f l = Some y -> List.find f (l ++ [x]) = Some y.
Proof.
  induction l as [|a l IH]; simpl; [discriminate|].
  destruct (f a); auto.
Qed.

Lemma In_remove_first (l : list A) x : In x (remove_first f l) -> In x l.
Proof.
  induction l as [|a l IH]; simpl; [tauto|].
  destruct (f a); simpl; intuition.
Qed.

Lemma length_remove_first (l : list A) x :
  List.find f l = Some x -> S (length (remove_first f l)) = length l.
Proof.
  induction l as [|a l IH]; simpl; [discriminate|].
  destruct (f a); simpl; auto.
Qed.

Lemma NoDup_map_remove_first (l : list A) :
  NoDup (map h l) -> NoDup (map h (remove_first f l)).
Proof.
  induction l as [|a l IH]; simpl; [auto|].
  intros Hnd. apply NoDup_cons in Hnd as [Ha Hl].
  destruct (f a); [exact Hl|]. simpl. apply NoDup_cons. split; [|auto].
  intros Hin. apply Ha. apply list_elem_of_In in Hin. apply list_elem_of_In.
  apply in_map_iff in Hin as (x & Hx & Hin). apply in_map_iff.
  exists x. split; [exact Hx|]. now apply In_remove_first in Hin.
Qed.

(** An update that keeps the key of the document it lands on keeps the
    list of keys. *)
Lemma map_update_first_same g (l : list A) x :
  List.find f l = Some x -> h (g x) = h x ->
  map h (update_first f g l) = map h l.
Proof.
  induction l as [|a l IH]; simpl; [discriminate|].
  destruct (f a).
  - intros [= ->] Hg. simpl. now rewrite Hg.
  - intros Hx Hg. simpl. now rewrite IH.
Qed.

Lemma map_update_first_absent g (l : list A) :
  List.find f l = None -> map h (update_first f g l) = map h l.
Proof.
  induction l as [|a l IH]; simpl; [reflexivity|].
  destruct (f a); [discriminate|]. intros Hn. simpl. now rewrite IH.
Qed.

Lemma In_update_first_inv g (l : list A) y :
  In y (update_first f g l) -> In y l \/ exists x, In x l /\ y = g x.
Proof.
  induction l as [|a l IH]; simpl; [tauto|].
  destruct (f a); simpl.
  - intros [<-|Hin]; eauto.
  - intros [<-|Hin]; [auto|]. destruct (IH Hin) as [?|(x & ? & ?)]; eauto.
Qed.

(** An update that gives the document a key nobody holds keeps the keys
    distinct. *)
Lemma NoDup_map_update_first_fresh g (l : list A) b :
  NoDup (map h l) -> (forall y, In y l -> h y <> b) -> (forall x, h (g x) = b) ->
  NoDup (map h (update_first f g l)).
Proof.
  induction l as [|a l IH]; simpl; [auto|].
  intros Hnd Hb Hg. apply NoDup_cons in Hnd as [Ha Hl].
  destruct (f a); simpl; apply NoDup_cons; split.
  - rewrite Hg. intros Hin. apply list_elem_of_In, in_map_iff in Hin
      as (y & Hy & Hin). apply (Hb y); auto.
  - exact Hl.
  - intros Hin. apply list_elem_of_In, in_map_iff in Hin as (y & Hy & Hin).
    destruct (In_update_first_inv _ _ _ Hin) as [Hy'|(x & _ & ->)].
    + apply Ha. apply list_elem_of_In. rewrite <- Hy. now apply in_map.
    + rewrite Hg in Hy. apply (Hb a); auto.
  - apply IH; auto.
Qed.

End KeyedDocuments.

(** With distinct keys, removing the first document that carries a key
    leaves none that carries it. *)
Lemma find_remove_first_unique {A} (k : A -> string) (id : string) (l : list A) :
  NoDup (map k l) ->
  List.find (fun x => String.eqb (k x) id)
            (remove_first (fun x => String.eqb (k x) id) l) = None.
Proof.
  induction l as [|a l IH]; simpl; [reflexivity|].
  intros Hnd. apply NoDup_cons in Hnd as [Ha Hl].
  destruct (String.eqb_spec (k a) id) as [E|E].
  - apply find_absent. intros x Hx. apply String.eqb_neq. intros Hk.
    apply Ha. apply list_elem_of_In. rewrite E, <- Hk. now apply in_map.
  - simpl. apply String.eqb_neq in E. rewrite E. auto.
Qed.


Lemma lookup_none_email_absent e w :
  user_with_email e w = None -> forall u, In u (users w) -> email u <> e.
Proof.
  intros H u Hu. apply String.eqb_neq.
  exact (find_none _ _ H u Hu).
Qed.

(** ** What a returning command has done *)

Lemma createUser_returns bcrypt_hash USER env dto w u w' :
  createUser bcrypt_hash USER env dto w = (Return u, w') ->
  user_with_email (dto_email dto) w = None
  /\ users w' = users w ++ [u]
  /\ user_id u = fresh_id env
  /\ email u = dto_email dto
  /\ password u = bcrypt_hash (salt env) SALT_ROUNDS (dto_password dto).
Proof.
  run; try discriminate; intros [= <- <-]; simpl; repeat split; auto.
Qed.

Lemma createUser_can_return bcrypt_hash USER env dto w :
  email_absent (dto_email dto) w ->
  faults env UserFindOne = None -> faults env BcryptHash = None ->
  faults env UserSave = None ->
  exists u w', createUser bcrypt_hash USER env dto w = (Return u, w').
Proof.
  intros Ha H1 H2 H3. apply email_absent_lookup in Ha. run; eauto.
Qed.

Lemma updateUser_returns env id patch w u w' :
  updateUser env id patch w = (Return u, w') ->
  exists existing,
    user_with_id id w = Some existing
    /\ u = set_user_fields patch existing
    /\ users w' = update_first (has_user_id id) (set_user_fields patch) (users w)
    /\ (forall e, patch_email patch = Some e -> e <> "" -> e <> email existing ->
        user_with_email e w = None).
Proof.
  unfold_services.
  destruct (faults env UserFindById); simpl; [discriminate|].
  destruct (List.find (has_user_id id) (users w)) as [existing|] eqn:Hid;
    simpl; [|discriminate].
  destruct (patch_email patch) as [e|] eqn:Hp; simpl.
  - unfold truthy.
    destruct (String.eqb_spec e "") as [E1|E1];
      destruct (String.eqb_spec e (email existing)) as [E2|E2]; simpl.
    4: destruct (faults env UserFindOne); simpl; [discriminate|];
       destruct (List.find (has_email e) (users w)) eqn:He; simpl; [discriminate|].
    all: destruct (faults env UserFindByIdAndUpdate); simpl; [discriminate|];
      rewrite Hid; simpl; intros [= <- <-]; exists existing; simpl;
      repeat split; auto; intros e' [= <-]; congruence.
  - destruct (faults env UserFindByIdAndUpdate); simpl; [discriminate|].
    rewrite Hid. simpl. intros [= <- <-]. exists existing. simpl.
    repeat split; auto. discriminate.
Qed.

Lemma updateUser_throws env id patch w e w' :
  updateUser env id patch w = (Throw e, w') -> users w' = users w.
Proof.
  run; intros [= <- <-]; reflexivity.
Qed.

Lemma deleteUser_returns env id w w' :
  deleteUser env id w = (Return tt, w') ->
  exists u, user_with_id id w = Some u
            /\ users w' = remove_first (has_user_id id) (users w).
Proof.
  run; try discriminate; intros [= <-]; simpl; eauto.
Qed.

Lemma createPost_returns env dto w p w' :
  createPost env dto w = (Return p, w') ->
  p = mkPost (fresh_id env) dto /\ posts w' = posts w ++ [p].
Proof.
  run; try discriminate; intros [= <- <-]; simpl; auto.
Qed.

Lemma deletePost_returns env id w w' :
  deletePost env id w = (Return tt, w') ->
  exists p, post_with_id id w = Some p
            /\ posts w' = remove_first (has_id id) (posts w).
Proof.
  run; try discriminate; intros [= <-]; simpl; eauto.
Qed.

(** ** Round trips and invariants *)

(** X8. Registering and then logging in.  When no stored user holds the
    e-mail and the store and bcrypt answer, [createUser] returns a user that
    carries the new identifier and the e-mail and is appended to the
    collection, and validating that e-mail with the same password afterwards
    returns that very user. *)
Theorem register_then_login
    bcrypt_hash bcrypt_compare USER env env' dto w :
  (forall s n d, bcrypt_compare d (bcrypt_hash s n d) = true) ->
  email_absent (dto_email dto) w ->
  faults env UserFindOne = None -> faults env BcryptHash = None ->
  faults env UserSave = None ->
  faults env' UserFindOne = None -> faults env' BcryptCompare = None ->
  exists u w1,
    createUser bcrypt_hash USER env dto w = (Return u, w1)
    /\ users w1 = users w ++ [u]
    /\ user_id u = fresh_id env /\ email u = dto_email dto
    /\ fst (validateUserCredentials bcrypt_compare env'
              (dto_email dto) (dto_password dto) w1) = Return u.
Proof.
  intros Hs Ha H1 H2 H3 H4 H5.
  destruct (createUser_can_return bcrypt_hash USER env dto w Ha H1 H2 H3)
    as (u & w1 & Hc).
  exists u, w1. split; [exact Hc|].
  apply createUser_returns in Hc as (Hn & Hu & Hid & He & Hp).
  repeat split; auto.
  assert (Hf : List.find (has_email (dto_email dto)) (users w1) = Some u).
  { rewrite Hu. apply find_app_last; [exact Hn|].
    unfold has_email. rewrite He. apply String.eqb_refl. }
  unfold_services. rewrite H4. simpl. rewrite Hf. simpl. rewrite H5. simpl.
  now rewrite Hp, Hs.
Qed.

(** X9. Registering the same e-mail a second time.  After a create that
    returned, any create with the same e-mail throws
    [InvalidInputException "Email already exists"] and the collection stays
    as the first create left it. *)
Theorem second_create_with_same_email_is_rejected
    bcrypt_hash USER env env' dto dto' w u w1 :
  createUser bcrypt_hash USER env dto w = (Return u, w1) ->
  dto_email dto' = dto_email dto ->
  faults env' UserFindOne = None ->
  let '(r, w2) := createUser bcrypt_hash USER env' dto' w1 in
  r = Throw (InvalidInputException "Email already exists")
  /\ users w2 = users w1.
Proof.
  intros Hc He Hf. apply createUser_returns in Hc as (Hn & Hu & _ & Heu & _).
  assert (Hfind : List.find (has_email (dto_email dto')) (users w1) = Some u).
  { rewrite Hu, He. apply find_app_last; [exact Hn|].
    unfold has_email. rewrite Heu. apply String.eqb_refl. }
  run. auto.
Qed.

(** X10. Reading back what was created.  When the identifier given to the
    new document is not yet in the collection, reading by that identifier
    after a create that returned answers the created document, for users and
    for posts. *)
Theorem create_then_read_by_id bcrypt_hash USER env env' w :
  (forall dto u w1,
     user_absent (fresh_id env) w ->
     createUser bcrypt_hash USER env dto w = (Return u, w1) ->
     faults env' UserFindById = None ->
     fst (findUserById env' (fresh_id env) w1) = Return u)
  /\ (forall dto p w1,
        post_absent (fresh_id env) w ->
        createPost env dto w = (Return p, w1) ->
        faults env' PostFindOne = None ->
        fst (findPostById env' (fresh_id env) w1) = Return (Some p)).
Proof.
  split.
  - intros dto u w1 Ha Hc Hf. apply user_absent_lookup in Ha.
    apply createUser_returns in Hc as (_ & Hu & Hid & _).
    assert (Hfind : List.find (has_user_id (fresh_id env)) (users w1) = Some u).
    { rewrite Hu. apply find_app_last; [exact Ha|].
      unfold has_user_id. rewrite Hid. apply String.eqb_refl. }
    run. reflexivity.
  - intros dto p w1 Ha Hc Hf. apply post_absent_lookup in Ha.
    apply createPost_returns in Hc as (-> & Hp).
    assert (Hfind : List.find (has_id (fresh_id env)) (posts w1)
                    = Some (mkPost (fresh_id env) dto)).
    { rewrite Hp. apply find_app_last; [exact Ha|].
      unfold has_id. simpl. apply String.eqb_refl. }
    run. reflexivity.
Qed.

Lemma createUser_throws bcrypt_hash USER env dto w e w' :
  createUser bcrypt_hash USER env dto w = (Throw e, w') -> users w' = users w.
Proof.
  run; intros [= <- <-]; reflexivity.
Qed.

Lemma deleteUser_users env id w :
  users (snd (deleteUser env id w)) = users w
  \/ users (snd (deleteUser env id w)) = remove_first (has_user_id id) (users w).
Proof.
  run; auto.
Qed.

Lemma email_set_user_fields patch u :
  email (set_user_fields patch u) = default (email u) (patch_email patch).
Proof. reflexivity. Qed.

(** X11. Distinct e-mail addresses stay distinct.  If no two stored users
    share an e-mail, then after any command, returning or throwing, no two
    stored users share one, provided an update does not carry the empty
    string as e-mail (the guard of [updateUser] takes it for no e-mail). *)
Theorem unique_emails_is_kept bcrypt_hash USER env c w r w' :
  unique_emails w ->
  (forall id patch, c = UpdateUser id patch -> patch_email patch <> Some "") ->
  execute bcrypt_hash USER env c w = (r, w') ->
  unique_emails w'.
Proof.
  unfold unique_emails. intros Hnd Hne.
  destruct c as [dto|id patch|id|dto|id patch|id]; unfold execute, fmapM, bind, ret.
  1-3: run; intros [= <- <-]; exact Hnd.
  - destruct (createUser bcrypt_hash USER env dto w) as [[u|e] w1] eqn:Hc;
      intros [= <- <-].
    + apply createUser_returns in Hc as (Hn & -> & _ & He & _).
      rewrite map_app. simpl. apply NoDup_app. repeat split; auto.
      * intros x Hx Hk. apply list_elem_of_In in Hk. destruct Hk as [<-|[]].
        apply list_elem_of_In, in_map_iff in Hx as (y & Hy & Hin).
        apply (lookup_none_email_absent _ _ Hn y Hin). congruence.
      * apply NoDup_singleton.
    + apply createUser_throws in Hc. now rewrite Hc.
  - destruct (updateUser env id patch w) as [[u|e] w1] eqn:Hc;
      intros [= <- <-].
    + apply updateUser_returns in Hc as (existing & Hid & -> & -> & Hfresh).
      destruct (patch_email patch) as [e|] eqn:Hp.
      * destruct (String.eqb_spec e (email existing)) as [E|E].
        -- rewrite (map_update_first_same _ email _ _ existing); auto.
           rewrite email_set_user_fields, Hp. simpl. exact E.
        -- apply (NoDup_map_update_first_fresh _ email _ _ e); auto.
           ++ apply lookup_none_email_absent, Hfresh; auto.
              intros ->. now apply (Hne id patch).
           ++ intros x. now rewrite email_set_user_fields, Hp.
      * rewrite (map_update_first_same _ email _ _ existing); auto.
        now rewrite email_set_user_fields, Hp.
    + apply updateUser_throws in Hc. now rewrite Hc.
  - pose proof (deleteUser_users env id w) as Hd.
    destruct (deleteUser env id w) as [[[]|e] w1]; intros [= <- <-];
      simpl in Hd; destruct Hd as [-> | ->]; auto;
      now apply NoDup_map_remove_first.
Qed.

Lemma In_update_first_other {A} (f : A -> bool) g (l : list A) x :
  In x l -> f x = false -> In x (update_first f g l).
Proof.
  induction l as [|a l IH]; simpl; [tauto|].
  intros [->|Hin] Hx.
  - rewrite Hx. now left.
  - destruct (f a); simpl; auto.
Qed.

Lemma update_first_id {A} (f : A -> bool) g (l : list A) :
  (forall x, g x = x) -> update_first f g l = l.
Proof.
  intros Hg. induction l as [|a l IH]; simpl; [reflexivity|].
  destruct (f a); now rewrite ?Hg, ?IH.
Qed.

Lemma updateUser_users env id patch w :
  users (snd (updateUser env id patch w)) = users w
  \/ users (snd (updateUser env id patch w))
     = update_first (has_user_id id) (set_user_fields patch) (users w).
Proof.
  run; auto.
Qed.

(** X12. [updateUser] neither adds, removes nor re-identifies a document:
    whether it returns or throws, the list of identifiers is the one before,
    and every document with another identifier is still there unchanged. *)
Theorem updateUser_keeps_identifiers env id patch w :
  map user_id (users (snd (updateUser env id patch w))) = map user_id (users w)
  /\ (forall u, In u (users w) -> user_id u <> id ->
      In u (users (snd (updateUser env id patch w)))).
Proof.
  destruct (updateUser_users env id patch w) as [-> | ->]; [auto|]. split.
  - destruct (List.find (has_user_id id) (users w)) as [x|] eqn:Hx.
    + now apply (map_update_first_same _ user_id _ _ x).
    + now apply map_update_first_absent.
  - intros u Hin Hne. apply In_update_first_other; [exact Hin|].
    now apply String.eqb_neq.
Qed.

(** X13. Deleting twice.  With distinct identifiers in the collection, after
    a delete that returned, the identifier is gone, the collection is one
    document shorter, and a second delete of it throws
    [ResourceNotFoundException] and removes nothing; for users and for
    posts. *)
Theorem second_delete_is_not_found env env' id w :
  (forall w1,
     unique_user_ids w ->
     deleteUser env id w = (Return tt, w1) ->
     faults env' UserFindByIdAndDelete = None ->
     user_with_id id w1 = None
     /\ S (length (users w1)) = length (users w)
     /\ (let '(r, w2) := deleteUser env' id w1 in
         r = Throw (ResourceNotFoundException "User not found")
         /\ users w2 = users w1))
  /\ (forall w1,
        unique_post_ids w ->
        deletePost env id w = (Return tt, w1) ->
        faults env' PostFindOne = None ->
        post_with_id id w1 = None
        /\ S (length (posts w1)) = length (posts w)
        /\ (let '(r, w2) := deletePost env' id w1 in
            r = Throw (ResourceNotFoundException "Post")
            /\ posts w2 = posts w1)).
Proof.
  split.
  - intros w1 Hnd Hd Hf. apply deleteUser_returns in Hd as (u & Hu & Hw).
    assert (Hgone : user_with_id id w1 = None).
    { unfold user_with_id. rewrite Hw.
      apply (find_remove_first_unique user_id id _ Hnd). }
    split; [exact Hgone|]. split.
    + rewrite Hw. eapply length_remove_first; eauto.
    + run. split; [reflexivity|]. now apply remove_first_absent.
  - intros w1 Hnd Hd Hf. apply deletePost_returns in Hd as (p & Hp & Hw).
    assert (Hgone : post_with_id id w1 = None).
    { unfold post_with_id. rewrite Hw.
      apply (find_remove_first_unique post_id id _ Hnd). }
    split; [exact Hgone|]. split.
    + rewrite Hw. eapply length_remove_first; eauto.
    + run. auto.
Qed.

(** X14. Reading back what was updated.  After an [updateUser] that
    returned, [findUserById] of the same identifier answers the user that the
    update returned. *)
Theorem update_then_read_by_id env env' id patch w u w1 :
  updateUser env id patch w = (Return u, w1) ->
  faults env' UserFindById = None ->
  fst (findUserById env' id w1) = Return u.
Proof.
  intros Hu Hf. apply updateUser_returns in Hu as (existing & Hid & -> & Hw & _).
  assert (Hfind : List.find (has_user_id id) (users w1)
                  = Some (set_user_fields patch existing)).
  { rewrite Hw. apply find_update_first; [exact Hid|].
    rewrite has_user_id_set_user_fields. eapply find_some; eauto. }
  run. reflexivity.
Qed.


Lemma set_post_fields_empty p : set_post_fields ∅ p = p.
Proof.
  destruct p as [i m]. unfold set_post_fields. simpl. f_equal.
  apply (left_id_L ∅ (∪)).
Qed.

Lemma set_user_fields_empty u :
  set_user_fields (mkUserPatch None None None None None ∅) u = u.
Proof.
  destruct u. unfold set_user_fields. simpl. f_equal.
  apply (left_id_L ∅ (∪)).
Qed.

(** X16. An update with an empty patch.  For an existing target and a store
    and bus that answer, the update still goes to the store and returns the
    document as it was, the collection is unchanged, and [updatePost] still
    publishes [post_updated]. *)
Theorem update_with_empty_patch env id w :
  (forall p,
     post_with_id id w = Some p ->
     faults env PostFindOne = None ->
     faults env PostFindOneAndUpdate = None ->
     faults env BusEmit = None ->
     let '(r, w') := updatePost env id ∅ w in
     r = Return (Some p)
     /\ posts w' = posts w
     /\ bus w' = bus w ++ [mkEvent "post_updated" (EntityPayload (Some p))]
     /\ trace w' = trace w ++ [PostFindOne; PostFindOneAndUpdate; BusEmit])
  /\ (forall u,
        user_with_id id w = Some u ->
        faults env UserFindById = None ->
        faults env UserFindByIdAndUpdate = None ->
        let '(r, w') :=
          updateUser env id (mkUserPatch None None None None None ∅) w in
        r = Return u
        /\ users w' = users w
        /\ trace w' = trace w ++ [UserFindById; UserFindByIdAndUpdate]).
Proof.
  split.
  - intros p Hp H1 H2 H3. run. norm_calls.
    rewrite set_post_fields_empty.
    rewrite (update_first_id _ _ _ set_post_fields_empty). auto.
  - intros u Hu H1 H2. run. norm_calls.
    rewrite set_user_fields_empty.
    rewrite (update_first_id _ _ _ set_user_fields_empty). auto.
Qed.

(** X17. The [get_post] handler answers a success reply for an identifier
    that no post carries: the reply's data is [null], with the message and
    path of a retrieved post. *)
Theorem get_post_replies_success_for_absent_id env w id :
  post_absent id w -> faults env PostFindOne = None ->
  fst (get_post env id w)
  = Return (ApiResponseUtil_success None "Post retrieved successfully"
              ("/posts/" +:+ id) None).
Proof.
  intros Ha Hf. apply post_absent_lookup in Ha.
  unfold get_post. run. reflexivity.
Qed.

(** The handlers of [PostsController] have no error handling of their own:
    a message handler throws exactly what its service method throws, in the
    same world. *)
Lemma controller_adds_no_error_handling env w e :
  (forall dto w', create_post env dto w = (Throw e, w')
                  <-> createPost env dto w = (Throw e, w'))
  /\ (forall w', get_posts env w = (Throw e, w')
                 <-> posts_findAll env w = (Throw e, w'))
  /\ (forall id w', get_post env id w = (Throw e, w')
                    <-> findPostById env id w = (Throw e, w'))
  /\ (forall id patch w', update_post env id patch w = (Throw e, w')
                          <-> updatePost env id patch w = (Throw e, w'))
  /\ (forall id w', delete_post env id w = (Throw e, w')
                    <-> deletePost env id w = (Throw e, w')).
Proof.
  unfold create_post, get_posts, get_post, update_post, delete_post, bind, ret.
  repeat split; intros H;
    match goal with
    | H : context [match ?m with _ => _ end] |- _ =>
        destruct m as [[?|?] ?]; congruence
    | |- context [match ?m with _ => _ end] =>
        destruct m as [[?|?] ?]; congruence
    end.
Qed.

(** X18. The [delete_post] handler, end to end.  For a post that exists,
    with store and bus answering, it replies success with [null] data and the
    path of the post, the post is gone from the collection and
    [post_deleted] is on the bus; for an identifier that no post carries it
    replies nothing and throws [ResourceNotFoundException "Post"]. *)
Theorem delete_post_end_to_end env w id :
  faults env PostFindOne = None ->
  (forall p,
     post_with_id id w = Some p ->
     faults env PostDeleteOne = None -> faults env BusEmit = None ->
     let '(r, w') := delete_post env id w in
     r = Return (ApiResponseUtil_success None "Post deleted successfully"
                   ("/posts/" +:+ id) None)
     /\ posts w' = remove_first (has_id id) (posts w)
     /\ bus w' = bus w ++ [mkEvent "post_deleted" (IdPayload id)])
  /\ (post_absent id w ->
      let '(r, w') := delete_post env id w in
      r = Throw (ResourceNotFoundException "Post")
      /\ posts w' = posts w /\ bus w' = bus w).
Proof.
  intros Hf. split.
  - intros p Hp H1 H2. unfold delete_post. run. auto.
  - intros Ha. apply post_absent_lookup in Ha. unfold delete_post. run. auto.
Qed.

Lemma append_assoc (a b c : string) : (a +:+ b) +:+ c = a +:+ (b +:+ c).
Proof.
  induction a as [|x a IH]; [reflexivity|].
  change (String x ((a +:+ b) +:+ c) = String x (a +:+ (b +:+ c))).
  now f_equal.
Qed.

(** X19. The connection string is assembled without escaping: a [":"] in
    the user name cannot be told from the separator, so moving the text
    after it into the front of the password gives the same string. *)
Theorem mongo_uri_does_not_escape_credentials cfg u x p :
  mongo_uri (with_credentials cfg (Some (u +:+ ":" +:+ x)) (Some p))
  = mongo_uri (with_credentials cfg (Some u) (Some (x +:+ ":" +:+ p))).
Proof.
  unfold mongo_uri, with_credentials, interpolate. simpl.
  f_equal. f_equal. rewrite !append_assoc. reflexivity.
Qed.

(** ** Runs of the further properties *)

Lemma unguarded_reads_rethrow_the_store_error_witness :
  fst (users_findAll env_reads_down one_user) = Throw (Error "store unreachable")
  /\ fst (posts_findAll env_reads_down one_post) = Throw (Error "store unreachable")
  /\ fst (findPostById env_reads_down "id-1" one_post)
     = Throw (Error "store unreachable").
Proof.
  destruct (unguarded_reads_rethrow_the_store_error env_reads_down one_user
              "store unreachable") as (H1 & _).
  destruct (unguarded_reads_rethrow_the_store_error env_reads_down one_post
              "store unreachable") as (_ & H2 & H3).
  split; [exact (H1 eq_refl)|]. split; [exact (H2 eq_refl)|].
  specialize (H3 eq_refl "id-1").
  destruct (findPostById env_reads_down "id-1" one_post). apply H3.
Defined.

Lemma failed_command_changes_nothing_witness :
  same_store one_post
    (snd (execute toy_hash "user" env_store_down (DeletePost "id-1") one_post))
  /\ (posts (snd (execute toy_hash "user" env_bus_down (CreatePost hello) empty_world))
      = [hello_post]
      /\ bus (snd (execute toy_hash "user" env_bus_down (CreatePost hello) empty_world))
         = []).
Proof.
  split.
  - destruct (failed_command_changes_nothing toy_hash "user" env_store_down
                (DeletePost "id-1") one_post
                (UnexpectedErrorException "Error deleting post"
                   (Some (Error "store unreachable")))
                (snd (execute toy_hash "user" env_store_down
                        (DeletePost "id-1") one_post)))
      as [H|(_ & H & _)].
    + vm_compute. reflexivity.
    + exact H.
    + discriminate H.
  - destruct (failed_command_changes_nothing toy_hash "user" env_bus_down
                (CreatePost hello) empty_world
                (UnexpectedErrorException "Error creating post" None)
                (snd (execute toy_hash "user" env_bus_down
                        (CreatePost hello) empty_world)))
      as [(_ & H & _)|(_ & _ & _ & _ & H)].
    + vm_compute. reflexivity.
    + discriminate H.
    + split; [reflexivity|exact H].
Defined.

Lemma event_iff_post_command_returns_witness :
  (exists ev, bus (snd (execute toy_hash "user" env_ok (DeletePost "id-1") one_post))
              = bus one_post ++ [ev])
  /\ bus (snd (execute toy_hash "user" env_ok (DeletePost "missing") one_post))
     = bus one_post
  /\ bus (snd (execute toy_hash "user" env_ok (CreateUser alice_dto) empty_world))
     = bus empty_world.
Proof.
  split; [|split].
  - apply (event_iff_post_command_returns toy_hash "user" env_ok
             (DeletePost "id-1") one_post (Return VoidReply)).
    vm_compute. reflexivity.
  - apply (event_iff_post_command_returns toy_hash "user" env_ok
             (DeletePost "missing") one_post
             (Throw (ResourceNotFoundException "Post"))).
    vm_compute. reflexivity.
  - apply (event_iff_post_command_returns toy_hash "user" env_ok
             (CreateUser alice_dto) empty_world (Return (UserReply alice))).
    vm_compute. reflexivity.
Defined.

Lemma commands_keep_to_their_collection_witness :
  users (snd (execute toy_hash "user" env_ok (CreatePost hello) two_users))
  = users two_users
  /\ posts (snd (execute toy_hash "user" env_ok (DeleteUser "id-1") two_posts))
     = posts two_posts.
Proof.
  split.
  - apply (commands_keep_to_their_collection toy_hash "user" env_ok
             (CreatePost hello) two_users (Return (PostReply (Some hello_post)))).
    vm_compute. reflexivity.
  - apply (commands_keep_to_their_collection toy_hash "user" env_ok
             (DeleteUser "id-1") two_posts
             (Throw (ResourceNotFoundException "User not found"))).
    vm_compute. reflexivity.
Defined.

Lemma register_then_login_witness :
  exists u w1,
    createUser toy_hash "user" env_next carol_dto two_users = (Return u, w1)
    /\ users w1 = users two_users ++ [u]
    /\ user_id u = "id-3" /\ email u = "c@x.com"
    /\ fst (validateUserCredentials toy_compare env_ok "c@x.com" "p" w1) = Return u.
Proof.
  apply (register_then_login toy_hash toy_compare "user" env_next env_ok
           carol_dto two_users toy_compare_hash); try reflexivity.
  intros u [<-|[<-|[]]]; discriminate.
Defined.

Lemma second_create_with_same_email_is_rejected_witness :
  let '(r, w2) :=
    createUser toy_hash "user" env_next alice_dto
      (snd (createUser toy_hash "user" env_ok alice_dto empty_world)) in
  r = Throw (InvalidInputException "Email already exists")
  /\ users w2 = [alice].
Proof.
  apply (second_create_with_same_email_is_rejected toy_hash "user" env_ok env_next
           alice_dto alice_dto empty_world alice); reflexivity.
Defined.

Lemma create_then_read_by_id_witness :
  fst (findUserById env_ok "id-3"
         (snd (createUser toy_hash "user" env_next carol_dto two_users)))
  = Return (mkUser "id-3" "c@x.com" "$2a$p" "admin" false true ∅)
  /\ fst (findPostById env_ok "id-3" (snd (createPost env_next hello two_posts)))
     = Return (Some (mkPost "id-3" hello)).
Proof.
  destruct (create_then_read_by_id toy_hash "user" env_next env_ok two_users)
    as (Hu & _).
  destruct (create_then_read_by_id toy_hash "user" env_next env_ok two_posts)
    as (_ & Hp).
  split.
  - apply (Hu carol_dto); [|reflexivity|reflexivity].
    intros u [<-|[<-|[]]]; discriminate.
  - apply (Hp hello); [|reflexivity|reflexivity].
    intros p [<-|[<-|[]]]; discriminate.
Defined.

Lemma two_users_unique_emails : unique_emails two_users.
Proof.
  unfold unique_emails. simpl.
  repeat constructor; rewrite ?list_elem_of_In; simpl; intuition discriminate.
Qed.

Lemma two_users_unique_ids : unique_user_ids two_users.
Proof.
  unfold unique_user_ids. simpl.
  repeat constructor; rewrite ?list_elem_of_In; simpl; intuition discriminate.
Qed.

Lemma two_posts_unique_ids : unique_post_ids two_posts.
Proof.
  unfold unique_post_ids. simpl.
  repeat constructor; rewrite ?list_elem_of_In; simpl; intuition discriminate.
Qed.

Lemma unique_emails_is_kept_witness :
  unique_emails
    (snd (execute toy_hash "user" env_ok
            (UpdateUser "id-2" (email_patch "c@x.com")) two_users))
  /\ unique_emails
       (snd (execute toy_hash "user" env_next (CreateUser carol_dto) two_users)).
Proof.
  split.
  - apply (unique_emails_is_kept toy_hash "user" env_ok
             (UpdateUser "id-2" (email_patch "c@x.com")) two_users
             (fst (execute toy_hash "user" env_ok
                     (UpdateUser "id-2" (email_patch "c@x.com")) two_users))
             _ two_users_unique_emails).
    + intros id patch [= <- <-]. discriminate.
    + apply surjective_pairing.
  - apply (unique_emails_is_kept toy_hash "user" env_next
             (CreateUser carol_dto) two_users
             (fst (execute toy_hash "user" env_next (CreateUser carol_dto) two_users))
             _ two_users_unique_emails).
    + intros id patch [=].
    + apply surjective_pairing.
Defined.

Lemma second_delete_is_not_found_witness :
  (user_with_id "id-1" (mkWorld [bob] [] [] [] [UserFindByIdAndDelete]) = None
   /\ fst (deleteUser env_ok "id-1" (mkWorld [bob] [] [] [] [UserFindByIdAndDelete]))
      = Throw (ResourceNotFoundException "User not found"))
  /\ fst (deletePost env_ok "id-1" (snd (deletePost env_ok "id-1" two_posts)))
     = Throw (ResourceNotFoundException "Post").
Proof.
  destruct (second_delete_is_not_found env_ok env_ok "id-1" two_users) as (Hu & _).
  destruct (second_delete_is_not_found env_ok env_ok "id-1" two_posts) as (_ & Hp).
  split.
  - destruct (Hu (mkWorld [bob] [] [] [] [UserFindByIdAndDelete])
                two_users_unique_ids eq_refl eq_refl) as (Hg & _ & H2).
    split; [exact Hg|].
    destruct (deleteUser env_ok "id-1" (mkWorld [bob] [] [] [] [UserFindByIdAndDelete])).
    apply H2.
  - destruct (Hp (snd (deletePost env_ok "id-1" two_posts))
                two_posts_unique_ids) as (_ & _ & H2); [reflexivity|reflexivity|].
    destruct (deletePost env_ok "id-1" (snd (deletePost env_ok "id-1" two_posts))).
    apply H2.
Defined.

Lemma update_then_read_by_id_witness :
  fst (findUserById env_ok "id-2"
         (snd (updateUser env_ok "id-2" (email_patch "c@x.com") two_users)))
  = Return (mkUser "id-2" "c@x.com" "$2a$q" "user" true false ∅).
Proof.
  apply (update_then_read_by_id env_ok env_ok "id-2" (email_patch "c@x.com")
           two_users); [|reflexivity].
  vm_compute. reflexivity.
Defined.


Lemma update_with_empty_patch_witness :
  (let '(r, w') := updatePost env_ok "id-1" ∅ one_post in
   r = Return (Some hello_post)
   /\ posts w' = [hello_post]
   /\ bus w' = [mkEvent "post_updated" (EntityPayload (Some hello_post))]
   /\ trace w' = [PostFindOne; PostFindOneAndUpdate; BusEmit])
  /\ (let '(r, w') := updateUser env_ok "id-1" no_patch one_user in
      r = Return alice
      /\ users w' = [alice]
      /\ trace w' = [UserFindById; UserFindByIdAndUpdate]).
Proof.
  destruct (update_with_empty_patch env_ok "id-1" one_post) as (Hp & _).
  destruct (update_with_empty_patch env_ok "id-1" one_user) as (_ & Hu).
  split.
  - exact (Hp hello_post eq_refl eq_refl eq_refl eq_refl).
  - exact (Hu alice eq_refl eq_refl eq_refl).
Defined.

Lemma get_post_replies_success_for_absent_id_witness :
  fst (get_post env_ok "missing" one_post)
  = Return (ApiResponseUtil_success None "Post retrieved successfully"
              "/posts/missing" None).
Proof.
  apply (get_post_replies_success_for_absent_id env_ok one_post "missing");
    [|reflexivity].
  intros p [<-|[]]; discriminate.
Defined.

Lemma delete_post_end_to_end_witness :
  (let '(r, w') := delete_post env_ok "id-1" two_posts in
   r = Return (ApiResponseUtil_success None "Post deleted successfully"
                 "/posts/id-1" None)
   /\ posts w' = [mkPost "id-2" {[ "title" := "second" ]}]
   /\ bus w' = [mkEvent "post_deleted" (IdPayload "id-1")])
  /\ (let '(r, w') := delete_post env_ok "missing" two_posts in
      r = Throw (ResourceNotFoundException "Post")
      /\ posts w' = posts two_posts /\ bus w' = []).
Proof.
  destruct (delete_post_end_to_end env_ok two_posts "id-1" eq_refl) as (H1 & _).
  destruct (delete_post_end_to_end env_ok two_posts "missing" eq_refl) as (_ & H2).
  split.
  - exact (H1 hello_post eq_refl eq_refl eq_refl).
  - apply H2. intros p [<-|[<-|[]]]; discriminate.
Defined.

(** X20. The [create_post] handler, end to end.  With store and bus
    answering it replies success with the new post (the new identifier and
    the fields of the DTO), the path of the collection and the created
    status; the post is appended and [post_created] is on the bus.  When the
    store rejects the create it throws [UnexpectedErrorException] and
    neither the collection nor the bus has changed. *)
Theorem create_post_end_to_end env w dto :
  (faults env PostCreate = None -> faults env BusEmit = None ->
   let '(r, w') := create_post env dto w in
   r = Return (ApiResponseUtil_success (mkPost (fresh_id env) dto)
                 "Post created successfully" "/posts" (Some HTTP_STATUS_CREATED))
   /\ posts w' = posts w ++ [mkPost (fresh_id env) dto]
   /\ bus w' = bus w
               ++ [mkEvent "post_created"
                     (EntityPayload (Some (mkPost (fresh_id env) dto)))])
  /\ (forall m, faults env PostCreate = Some m ->
      let '(r, w') := create_post env dto w in
      r = Throw (UnexpectedErrorException "Error creating post" None)
      /\ posts w' = posts w /\ bus w' = bus w).
Proof.
  split.
  - intros H1 H2. unfold create_post. run. auto.
  - intros m H1. unfold create_post. run. auto.
Qed.

Lemma create_post_end_to_end_witness :
  (let '(r, w') := create_post env_next hello two_posts in
   r = Return (ApiResponseUtil_success (mkPost "id-3" hello)
                 "Post created successfully" "/posts" (Some HTTP_STATUS_CREATED))
   /\ posts w' = posts two_posts ++ [mkPost "id-3" hello]
   /\ bus w' = [mkEvent "post_created" (EntityPayload (Some (mkPost "id-3" hello)))])
  /\ (let '(r, w') := create_post env_store_down hello two_posts in
      r = Throw (UnexpectedErrorException "Error creating post" None)
      /\ posts w' = posts two_posts /\ bus w' = []).
Proof.
  destruct (create_post_end_to_end env_next two_posts hello) as (H1 & _).
  destruct (create_post_end_to_end env_store_down two_posts hello) as (_ & H2).
  split.
  - exact (H1 eq_refl eq_refl).
  - exact (H2 "store unreachable" eq_refl).
Defined.

(** X21. [findUserByEmail] answers [null], not an error, for an e-mail that
    no stored user holds, where [findUserById] throws for an absent
    identifier; and with distinct e-mail addresses it answers the holder. *)
Theorem findUserByEmail_answers_holder_or_null env w :
  faults env UserFindOne = None ->
  (forall e, email_absent e w -> fst (findUserByEmail env e w) = Return None)
  /\ (forall u, unique_emails w -> In u (users w) ->
      fst (findUserByEmail env (email u) w) = Return (Some u)).
Proof.
  intros Hf. split.
  - intros e Ha. apply email_absent_lookup in Ha. run. reflexivity.
  - intros u Hnd Hin. pose proof (find_by_unique_email _ _ Hnd Hin) as Hu.
    run. reflexivity.
Qed.

Lemma findUserByEmail_answers_holder_or_null_witness :
  fst (findUserByEmail env_ok "nobody@x.com" two_users) = Return None
  /\ fst (findUserByEmail env_ok "b@x.com" two_users) = Return (Some bob).
Proof.
  destruct (findUserByEmail_answers_holder_or_null env_ok two_users eq_refl)
    as (H1 & H2).
  split.
  - apply H1. intros u [<-|[<-|[]]]; discriminate.
  - apply (H2 bob two_users_unique_emails). right. now left.
Defined.
